(** * Monte Carlo notebooks: failure probability and numerical integration

    A shallow embedding of the code cells of [monte_carlo_hoop_strength.ipynb]
    and [monte_carlo_integration.ipynb].

    - Python [int] is [Z]; Python [float] and [numpy.float64] are IEEE-754
      binary64 values, modelled by the standard library's [spec_float] with
      [prec = 53] and [emax = 1024] (round to nearest, ties to even).
    - Exceptions are an explicit [result]; the process-wide random generator
      and the exceptions are threaded by the [Run] monad.
    - What the notebooks import and do not define (the samplers of
      scipy.stats and numpy.random, [pow], [sin], [cos], the contents of a
      fresh [numpy.empty] buffer) is a variable of the section. A sampler is
      any function from the generator state to a float and the next state:
      [rvs()] gives a [numpy.float64], [numpy.random.uniform] a Python
      [float]. [x ** n] is taken to return a float (Python raises
      OverflowError when the power overflows, which no point of the sampled
      intervals reaches).
    - Allocation is taken to succeed: [numpy.empty(N)] and [numpy.ones(N)]
      return an array for every [N >= 0].
    - The plotting cell and the SymPy cells are not modelled. *)

From Stdlib Require Import ZArith Bool Lia List SpecFloat.
From stdpp Require Import base list.

Local Open Scope Z_scope.

(** ** Binary64 *)

Module F64.

Abbreviation float := spec_float.

Definition prec : Z := 53.
Definition emax : Z := 1024.

Definition add : float -> float -> float := SFadd prec emax.
Definition mul : float -> float -> float := SFmul prec emax.
Definition div : float -> float -> float := SFdiv prec emax.
Definition leb : float -> float -> bool := SFleb.

(** Conversion of an integer, correctly rounded; an integer too large for
    the format rounds to infinity. *)
Definition of_Z (n : Z) : float := binary_normalize prec emax n 0 false.

Definition zero : float := S754_zero false.
Definition one : float := S754_finite false 4503599627370496 (-52).

Definition is_infinite (x : float) : bool :=
  match x with S754_infinity _ => true | _ => false end.

Definition is_zero (x : float) : bool :=
  match x with S754_zero _ => true | _ => false end.


(** The literals [0.05] and [0.1] ([0x1.999999999999ap-5] and
    [0x1.999999999999ap-4]). *)
Definition lit_0_05 : float := S754_finite false 7205759403792794 (-57).
Definition lit_0_1 : float := S754_finite false 7205759403792794 (-56).

End F64.

Import F64.

(** ** Python values, exceptions and arithmetic *)

Inductive exn : Type :=
| ZeroDivisionError
| OverflowError
| ValueError
| IndexError
| InvalidParameter.
(* [InvalidParameter] is the error kind of the specification; the notebooks
   define no such exception and no operation below raises it. *)

Inductive result (A : Type) : Type :=
| Ok (a : A)
| Raise (e : exn).

Arguments Ok {A} a.
Arguments Raise {A} e.

#[global] Instance result_ret : MRet result := @Ok.

#[global] Instance result_bind : MBind result :=
  fun A B f m => match m with Ok a => f a | Raise e => Raise e end.

Inductive pyval : Type :=
| PyInt (n : Z)
| PyFloat (x : float)
| NpFloat64 (x : float).

(** [float(n)] for a Python [int]: OverflowError when [n] is out of range. *)
Definition py_float (n : Z) : result float :=
  let x := of_Z n in
  if is_infinite x then Raise OverflowError else Ok x.

(** [u op v] for [+] and [*]: an [int] meeting a float is converted first;
    a [numpy.float64] operand makes the result a [numpy.float64]. *)
Definition arith (opZ : Z -> Z -> Z) (opF : float -> float -> float)
    (u v : pyval) : result pyval :=
  match u, v with
  | PyInt a, PyInt b => Ok (PyInt (opZ a b))
  | PyInt a, PyFloat y => x ← py_float a; Ok (PyFloat (opF x y))
  | PyFloat x, PyInt b => y ← py_float b; Ok (PyFloat (opF x y))
  | PyFloat x, PyFloat y => Ok (PyFloat (opF x y))
  | PyInt a, NpFloat64 y => x ← py_float a; Ok (NpFloat64 (opF x y))
  | NpFloat64 x, PyInt b => y ← py_float b; Ok (NpFloat64 (opF x y))
  | PyFloat x, NpFloat64 y => Ok (NpFloat64 (opF x y))
  | NpFloat64 x, PyFloat y => Ok (NpFloat64 (opF x y))
  | NpFloat64 x, NpFloat64 y => Ok (NpFloat64 (opF x y))
  end.

Definition py_add : pyval -> pyval -> result pyval := arith Z.add add.
Definition py_mul : pyval -> pyval -> result pyval := arith Z.mul mul.

(** [u / d] where [d] is a Python [float] (every [/ float(N)] of the
    notebooks). Python's own numbers raise on a zero divisor; a
    [numpy.float64] dividend divides by IEEE rules (inf or nan, a warning,
    no exception). *)
Definition truediv_float (u : pyval) (d : float) : result pyval :=
  match u with
  | PyInt a =>
      x ← py_float a;
      if is_zero d then Raise ZeroDivisionError else Ok (PyFloat (div x d))
  | PyFloat x =>
      if is_zero d then Raise ZeroDivisionError else Ok (PyFloat (div x d))
  | NpFloat64 x => Ok (NpFloat64 (div x d))
  end.

(** Operations on [numpy.float64] scalars and arrays: IEEE, never raising. *)
Module Np.

(** The Python [int] operand of a float64 operation. *)
Definition of_int (n : Z) : float := of_Z n.

Definition mul : float -> float -> float := F64.mul.
Definition truediv : float -> float -> float := F64.div.

(** [x > y]: false as soon as one side is nan. *)
Definition gt (x y : float) : bool := SFltb y x.

(** [a[i] = v] and [a[i]] on a one-dimensional array; a negative index
    counts from the end. *)
Definition index (len : nat) (i : Z) : result nat :=
  let j := if i <? 0 then i + Z.of_nat len else i in
  if (0 <=? j) && (j <? Z.of_nat len) then Ok (Z.to_nat j) else Raise IndexError.

Definition setitem (a : list float) (i : Z) (v : float) : result (list float) :=
  j ← index (length a) i; Ok (<[j := v]> a).

Definition getitem (a : list float) (i : Z) : result float :=
  j ← index (length a) i;
  match a !! j with Some v => Ok v | None => Raise IndexError end.

(** [numpy.empty(N)]: [N] cells of whatever the allocator returns. *)
Definition empty (contents : nat -> float) (N : Z) : result (list float) :=
  if N <? 0 then Raise ValueError else Ok (map contents (seq 0 (Z.to_nat N))).

(** [(x > y)] on arrays of one length, element by element. *)
Definition gt_array (x y : list float) : list bool := zip_with gt x y.

(** [mask.sum()]: the number of [True] cells, a [numpy.int64]. *)
Definition sum_bool (mask : list bool) : Z :=
  Z.of_nat (length (filter (fun b => b = true) mask)).

(** [s / d] for a [numpy.int64] [s] and a Python [float] [d]. *)
Definition int64_truediv (s : Z) (d : float) : float := F64.div (of_Z s) d.

(** [numpy.ones(N)], [k * a] for a Python [int] [k], [a + b] and
    [numpy.sqrt(a)] on arrays. *)
Definition ones (N : Z) : result (list float) :=
  if N <? 0 then Raise ValueError else Ok (repeat one (Z.to_nat N)).

Definition scale (k : Z) (a : list float) : list float := map (mul (of_int k)) a.

Definition add_array (a b : list float) : list float := zip_with F64.add a b.

Definition sqrt (a : list float) : list float := map (SFsqrt prec emax) a.

End Np.

(** [range(N)] *)
Definition range (N : Z) : list Z := map Z.of_nat (seq 0 (Z.to_nat N)).

(** [[
ones = numpy.ones(N)
numpy.sqrt(ones + 3 * ones)
]] *)
Definition vectorization_aside (N : Z) : result (list float) :=
  ones ← Np.ones N;
  Ok (Np.sqrt (Np.add_array ones (Np.scale 3 ones))).

(** ** The generator and the [Run] monad

    [Run G A] is a computation that advances the process-wide generator
    state [G] and either returns an [A] or raises. *)

Definition Run (G A : Type) : Type := G -> result A * G.

#[global] Instance run_ret {G} : MRet (Run G) := fun A a g => (Ok a, g).

#[global] Instance run_bind {G} : MBind (Run G) :=
  fun A B f m g =>
    match m g with
    | (Ok a, g') => f a g'
    | (Raise e, g') => (Raise e, g')
    end.

(** A step that cannot use the generator. *)
Definition pure {G A} (r : result A) : Run G A := fun g => (r, g).

(** A draw: it cannot raise. *)
Definition draw {G A} (d : G -> A * G) : Run G A :=
  fun g => let (a, g') := d g in (Ok a, g').

(** [for i in l: st = body(i, st)] *)
Fixpoint for_each {G A St} (l : list A) (body : A -> St -> Run G St) (st : St)
    : Run G St :=
  match l with
  | [] => mret st
  | i :: l' => st' ← body i st; for_each l' body st'
  end.

(** ** monte_carlo_hoop_strength.ipynb *)

Record hoop_state : Type := HoopState {
  failures : Z;
  stresses : list float;
  yield_strengths : list float
}.

Section Notebooks.

(** The state of the generator behind [scipy.stats] and [numpy.random]. *)
Variable G : Type.
(** [scipy.stats.norm(loc, scale).rvs()] *)
Variable norm_rvs : float -> float -> G -> float * G.
(** [numpy.random.uniform(low, high)] *)
Variable uniform : float -> float -> G -> float * G.
(** [x ** n] on a Python float, [numpy.sin] and [numpy.cos]. *)
Variable float_pow : float -> Z -> float.
Variable np_sin np_cos : float -> float.
(** Contents of the [k]-th fresh [numpy.empty] buffer. *)
Variable heap : nat -> nat -> float.

(** [[
def simulated_stress():
    P = 10
    radius = scipy.stats.norm(60, 60*0.05).rvs()
    W = scipy.stats.norm(4, 4*0.05).rvs()
    return P * radius / W
]] *)
Definition simulated_stress (g : G) : float * G :=
  let P := 10 in
  let (radius, g1) := norm_rvs (of_Z 60) (mul (of_Z 60) lit_0_05) g in
  let (W, g2) := norm_rvs (of_Z 4) (mul (of_Z 4) lit_0_05) g1 in
  (Np.truediv (Np.mul (Np.of_int P) radius) W, g2).

(** [[
def simulated_yield_strength():
    return scipy.stats.norm(200, 200*0.1).rvs()
]] *)
Definition simulated_yield_strength (g : G) : float * G :=
  norm_rvs (of_Z 200) (mul (of_Z 200) lit_0_1) g.

(** The body of the simulation loop. *)
Definition simulation_step (i : Z) (st : hoop_state) : Run G hoop_state :=
  s ← draw simulated_stress;
  stresses' ← pure (Np.setitem (stresses st) i s);
  y ← draw simulated_yield_strength;
  yield_strengths' ← pure (Np.setitem (yield_strengths st) i y);
  si ← pure (Np.getitem stresses' i);
  yi ← pure (Np.getitem yield_strengths' i);
  mret (HoopState
          (if Np.gt si yi then failures st + 1 else failures st)
          stresses' yield_strengths').

(** [[
failures = 0
stresses = numpy.empty(N)
yield_strengths = numpy.empty(N)
for i in range(N):
    stresses[i] = simulated_stress()
    yield_strengths[i] = simulated_yield_strength()
    if stresses[i] > yield_strengths[i]:
        failures += 1
]] *)
Definition simulation_cell (N : Z) : Run G hoop_state :=
  let failures := 0 in
  stresses ← pure (Np.empty (heap 0) N);
  yield_strengths ← pure (Np.empty (heap 1) N);
  for_each (range N) simulation_step (HoopState failures stresses yield_strengths).

(** [failures / float(N)] *)
Definition probability_cell (st : hoop_state) (N : Z) : result pyval :=
  d ← py_float N; truediv_float (PyInt (failures st)) d.

(** The two cells in notebook order, for a given [N]. *)
Definition run_failure_probability (N : Z) : Run G pyval :=
  st ← simulation_cell N; pure (probability_cell st N).

(** The experiment executed twice in one session: nothing reseeds the
    generator in between. *)
Definition run_twice (N : Z) : Run G (pyval * pyval) :=
  r1 ← run_failure_probability N;
  r2 ← run_failure_probability N;
  mret (r1, r2).

(** [scipy.stats.norm(loc, scale).rvs(N)]: [N] draws, in order. *)
Fixpoint rvs_array (loc scale : float) (n : nat) (g : G) : list float * G :=
  match n with
  | O => ([], g)
  | S n' =>
      let (x, g1) := norm_rvs loc scale g in
      let (l, g2) := rvs_array loc scale n' g1 in
      (x :: l, g2)
  end.

Definition norm_rvs_n (loc scale : float) (N : Z) : Run G (list float) :=
  if N <? 0 then pure (Raise ValueError)
  else draw (rvs_array loc scale (Z.to_nat N)).

(** [(stress > yield_strength).sum() / float(N)] on two arrays of trial
    outputs. *)
Definition reduce_outputs (stress yield_strength : list float) (N : Z)
    : result pyval :=
  let s := Np.sum_bool (Np.gt_array stress yield_strength) in
  d ← py_float N; Ok (NpFloat64 (Np.int64_truediv s d)).

(** [((P * radius / W) > yield_strength).sum() / float(N)] on the three
    arrays of draws. *)
Definition vectorized_reduce (P : Z) (radius W yield_strength : list float)
    (N : Z) : result pyval :=
  let stress := zip_with Np.truediv (map (Np.mul (Np.of_int P)) radius) W in
  reduce_outputs stress yield_strength N.

(** [[
P = 10
radius = scipy.stats.norm(60, 60*0.05).rvs(N)
W = scipy.stats.norm(4, 4*0.05).rvs(N)
yield_strength = scipy.stats.norm(200, 200*0.1).rvs(N)
((P * radius / W) > yield_strength).sum() / float(N)
]] *)
Definition vectorized_cell (N : Z) : Run G pyval :=
  let P := 10 in
  radius ← norm_rvs_n (of_Z 60) (mul (of_Z 60) lit_0_05) N;
  W ← norm_rvs_n (of_Z 4) (mul (of_Z 4) lit_0_05) N;
  yield_strength ← norm_rvs_n (of_Z 200) (mul (of_Z 200) lit_0_1) N;
  pure (vectorized_reduce P radius W yield_strength N).

(** ** monte_carlo_integration.ipynb *)

(** [[
accum = 0
for i in range(N):
    accum += <integrand at a fresh sample>
measure * accum/float(N)
]] *)
Definition integration_cell (N : Z) (trial : Run G pyval) (measure : Z)
    : Run G pyval :=
  accum ← for_each (range N)
            (fun _ accum => v ← trial; pure (py_add accum v)) (PyInt 0);
  pure (m ← py_mul (PyInt measure) accum;
        d ← py_float N;
        truediv_float m d).

(** [x = numpy.random.uniform(1, 5)]; the term added is [x**2]. *)
Definition first_trial : Run G pyval :=
  x ← draw (uniform (of_Z 1) (of_Z 5));
  mret (PyFloat (float_pow x 2)).

(** [x = numpy.random.uniform(2, 3)]; the term added is
    [x**2 + 4*x*numpy.sin(x)]. *)
Definition second_trial : Run G pyval :=
  x ← draw (uniform (of_Z 2) (of_Z 3));
  pure (a ← py_mul (PyInt 4) (PyFloat x);
        b ← py_mul a (NpFloat64 (np_sin x));
        py_add (PyFloat (float_pow x 2)) b).

(** [x = numpy.random.uniform(4, 6)], [y = numpy.random.uniform(0, 1)]; the
    term added is [numpy.cos(x**4) + 3 * y * y]. *)
Definition third_trial : Run G pyval :=
  x ← draw (uniform (of_Z 4) (of_Z 6));
  y ← draw (uniform (of_Z 0) (of_Z 1));
  pure (a ← py_mul (PyInt 3) (PyFloat y);
        b ← py_mul a (PyFloat y);
        py_add (NpFloat64 (np_cos (float_pow x 4))) b).

(** [measure = 5 - 1], [measure = 3 - 2], [measure = 2 * 1]. *)
Definition first_integral (N : Z) : Run G pyval :=
  integration_cell N first_trial (5 - 1).

Definition second_integral (N : Z) : Run G pyval :=
  integration_cell N second_trial (3 - 2).

Definition third_integral (N : Z) : Run G pyval :=
  integration_cell N third_trial (2 * 1).

End Notebooks.

(** ** The quantities the specification speaks of *)

Section Outputs.

Variable G : Type.
Variable norm_rvs : float -> float -> G -> float * G.

(** The outputs [(stress_i, strength_i)] of [n] trials, in loop order. *)
Fixpoint draw_trials (n : nat) (g : G) : list (float * float) * G :=
  match n with
  | O => ([], g)
  | S n' =>
      let (s, g1) := simulated_stress G norm_rvs g in
      let (y, g2) := simulated_yield_strength G norm_rvs g1 in
      let (l, g3) := draw_trials n' g2 in
      ((s, y) :: l, g3)
  end.

(** The values of [n] evaluations of a float-valued trial, in loop order. *)
Fixpoint draw_values (trial : G -> float * G) (n : nat) (g : G)
    : list float * G :=
  match n with
  | O => ([], g)
  | S n' =>
      let (v, g1) := trial g in
      let (l, g2) := draw_values trial n' g1 in
      (v :: l, g2)
  end.

End Outputs.

Arguments draw_trials {G} norm_rvs n g.
Arguments draw_values {G} trial n g.

(** A trial fails when its stress is strictly above its strength. *)
Definition fails (t : float * float) : bool := Np.gt (fst t) (snd t).

(** The number of failing trials. *)
Definition count_failures (trials : list (float * float)) : Z :=
  Z.of_nat (length (filter (fun t => fails t = true) trials)).

(** The running sum of the integration loop: [0 + v1 + v2 + ...], from the
    left. *)
Definition float_sum (values : list float) : float :=
  fold_left add values zero.

(** The integrands as functions of the sampled coordinates. *)
Definition integrand1 (float_pow : float -> Z -> float) (x : float) : float :=
  float_pow x 2.

Definition integrand2 (float_pow : float -> Z -> float) (np_sin : float -> float)
    (x : float) : float :=
  add (float_pow x 2) (mul (mul (of_Z 4) x) (np_sin x)).

Definition integrand3 (float_pow : float -> Z -> float) (np_cos : float -> float)
    (x y : float) : float :=
  add (np_cos (float_pow x 4)) (mul (mul (of_Z 3) y) y).

Section Integrands.

Variable G : Type.
Variable uniform : float -> float -> G -> float * G.
Variable float_pow : float -> Z -> float.
Variable np_sin np_cos : float -> float.

(** One sampled value of each integrand: the draws of one loop iteration and
    the term it adds. *)
Definition sample1 (g : G) : float * G :=
  let (x, g1) := uniform (of_Z 1) (of_Z 5) g in
  (integrand1 float_pow x, g1).

Definition sample2 (g : G) : float * G :=
  let (x, g1) := uniform (of_Z 2) (of_Z 3) g in
  (integrand2 float_pow np_sin x, g1).

Definition sample3 (g : G) : float * G :=
  let (x, g1) := uniform (of_Z 4) (of_Z 6) g in
  let (y, g2) := uniform (of_Z 0) (of_Z 1) g1 in
  (integrand3 float_pow np_cos x y, g2).

End Integrands.

Arguments sample1 {G} uniform float_pow g.
Arguments sample2 {G} uniform float_pow np_sin g.
Arguments sample3 {G} uniform float_pow np_cos g.

(** Order on results in [0, 1]. *)
Definition in_unit_interval (p : float) : bool := leb zero p && leb p one.

(** ** A generator that plays back a tape

    The cells are run on concrete draws with a generator whose state is the
    list of standard variates still to come (an exhausted tape gives 0). A
    normal draw is [loc + scale * z], a uniform draw [low + (high - low) * u]. *)

Module Tape.

Definition G : Type := list float.

Definition next (g : G) : float * G :=
  match g with
  | [] => (zero, [])
  | z :: g' => (z, g')
  end.

Definition norm_rvs (loc scale : float) (g : G) : float * G :=
  let (z, g') := next g in (add loc (mul scale z), g').

Definition uniform (low high : float) (g : G) : float * G :=
  let (u, g') := next g in
  (add low (mul (SFsub prec emax high low) u), g').

(** [x ** n] by repeated multiplication; stand-ins for sine and cosine. *)
Definition float_pow (x : float) (n : Z) : float :=
  Z.iter n (mul x) one.

Definition np_sin (x : float) : float := zero.
Definition np_cos (x : float) : float := one.

Definition heap (k i : nat) : float := S754_nan.

Definition minus (n : Z) : float := of_Z (- n).
Definition half : float := S754_finite false 4503599627370496 (-53).

(** Two trials of the hoop experiment: stress 150 against strength 200, then
    150 against 140. *)
Definition one_failure_in_two : G :=
  [zero; zero; zero; zero; zero; minus 3].


(** One trial: stress 150 against strength 140. *)
Definition one_failure : G := [zero; zero; minus 3].

(** Two uniform draws: the middle of the interval, then its lower end. *)
Definition two_points : G := [half; zero].

End Tape.

(** ** Rounding, on the integers it shifts

    [binary_round_aux] shifts a mantissa right bit by bit, keeping a round and
    a sticky bit, rounds to nearest even and renormalises. The definitions
    below say what the shifted record holds and what comes out. *)

(** [mrs] is [x] shifted right by [log2 T] bits: quotient, round bit (the
    remainder is at least half) and sticky bit (it is neither zero nor half). *)
Definition shr_inv (x T : Z) (mrs : shr_record) : Prop :=
  exists rem, x = shr_m mrs * T + rem /\ 0 <= rem < T /\ 0 <= shr_m mrs /\
    (shr_r mrs = true <-> T <= 2 * rem) /\
    (shr_s mrs = true <-> rem <> 0 /\ 2 * rem <> T).

(** [x / T] rounded to the nearest integer, a tie to the even one. *)
Definition round_half_even (x T : Z) : Z :=
  let m := x / T in
  let rem := x mod T in
  if T <? 2 * rem then m + 1
  else if (T =? 2 * rem) && Z.odd m then m + 1
  else m.

(** The float of sign [s] with rounded mantissa [m] (at most [2 ^ 53]) at
    exponent [e]: a mantissa of [2 ^ 53] carries into the exponent, an
    exponent above 971 overflows to infinity. *)
Definition pack (s : bool) (m e : Z) : float :=
  if m <? 2 ^ 53 then
    if e <=? 971 then S754_finite s (Z.to_pos m) e else S754_infinity s
  else
    if e + 1 <=? 971 then S754_finite s 4503599627370496 (e + 1)
    else S754_infinity s.

(** The 53-bit mantissa of a positive integer before the carry. *)
Definition int_mantissa (x : Z) : Z :=
  let d := Zdigits2 x in
  if d <=? 53 then x * 2 ^ (53 - d) else round_half_even x (2 ^ (d - 53)).

(** [2 ^ k * sum] does not overflow and [sum / d] is not subnormal, for a
    [sum] with a 53-digit mantissa (or a zero, an infinity, nan) and a
    positive divisor [d]: the range in which a product by [2 ^ k] is exact. *)
Definition scales_exactly (k : Z) (sum d : float) : bool :=
  match d with
  | S754_finite false md ed =>
      (Zpos (digits2_pos md) =? 53) &&
      match sum with
      | S754_finite _ m e =>
          (Zpos (digits2_pos m) =? 53) && (-1074 <=? e) && (e + k <=? 971)
          && (-1021 <=? e - ed)
      | _ => true
      end
  | _ => false
  end.

(** * Properties *)

(** ** Rounding *)

Lemma fexp_eq (e : Z) : fexp prec emax e = Z.max (e - 53) (-1074).
Proof. reflexivity. Qed.

Lemma digits2_bounds (p : positive) :
  2 ^ (Zpos (digits2_pos p) - 1) <= Zpos p < 2 ^ Zpos (digits2_pos p).
Proof.
  induction p as [p IH|p IH|]; simpl digits2_pos.
  - rewrite Pos2Z.inj_succ. replace (Z.succ (Zpos (digits2_pos p)) - 1) with (Z.succ (Zpos (digits2_pos p) - 1)) by lia.
    rewrite !Z.pow_succ_r by lia. lia.
  - rewrite Pos2Z.inj_succ. replace (Z.succ (Zpos (digits2_pos p)) - 1) with (Z.succ (Zpos (digits2_pos p) - 1)) by lia.
    rewrite !Z.pow_succ_r by lia. lia.
  - simpl. lia.
Qed.

Lemma digits2_unique (p : positive) (d : Z) :
  2 ^ (d - 1) <= Zpos p < 2 ^ d -> Zpos (digits2_pos p) = d.
Proof.
  intros [Hlo Hhi]. pose proof (digits2_bounds p) as [Blo Bhi].
  set (D := Zpos (digits2_pos p)) in *.
  assert (0 < d).
  { destruct (Z.ltb_spec 0 d); [assumption|].
    exfalso. destruct (Z.eq_dec d 0) as [->|]; [simpl in Hhi; lia|].
    rewrite Z.pow_neg_r in Hhi by lia. lia. }
  destruct (Z.lt_trichotomy D d) as [Hlt|[Heq|Hgt]]; [|assumption|].
  - exfalso. assert (2 ^ D <= 2 ^ (d - 1)) by (apply Z.pow_le_mono_r; lia). lia.
  - exfalso. assert (2 ^ d <= 2 ^ (D - 1)) by (apply Z.pow_le_mono_r; lia). lia.
Qed.

Lemma shr_inv_init (x : Z) :
  0 <= x -> shr_inv x 1 (Build_shr_record x false false).
Proof.
  intros Hx. exists 0. simpl. repeat split; try lia; try discriminate.
Qed.

Lemma shr_inv_step (x T : Z) (mrs : shr_record) :
  0 < T -> shr_inv x T mrs -> shr_inv x (2 * T) (shr_1 mrs).
Proof.
  intros HT (rem & Hx & Hrem & Hm & Hr & Hs).
  destruct mrs as [m r s]. simpl in *.
  assert (Hrs : orb r s = true <-> rem <> 0).
  { split.
    - intros H. apply orb_true_iff in H as [H|H].
      + apply Hr in H. lia.
      + apply Hs in H. lia.
    - intros H. apply orb_true_iff. destruct (Z.eq_dec (2 * rem) T).
      + left. apply Hr. lia.
      + right. apply Hs. lia. }
  destruct m as [|[p|p|]|p]; simpl; try lia.
  - exists rem. simpl.
    split; [lia|split; [lia|split; [lia|split; [split; [discriminate|lia]|]]]].
    rewrite Hrs. lia.
  - exists (T + rem). simpl. rewrite Pos2Z.inj_xI in Hx.
    split; [lia|split; [lia|split; [lia|split; [split; [lia|reflexivity]|]]]].
    rewrite Hrs. lia.
  - exists rem. simpl. rewrite Pos2Z.inj_xO in Hx.
    split; [lia|split; [lia|split; [lia|split; [split; [discriminate|lia]|]]]].
    rewrite Hrs. lia.
  - exists (T + rem). simpl.
    split; [lia|split; [lia|split; [lia|split; [split; [lia|reflexivity]|]]]].
    rewrite Hrs. lia.
Qed.

Lemma shr_inv_iter (x : Z) (n : positive) :
  forall (T : Z) (mrs : shr_record),
  0 < T -> shr_inv x T mrs -> shr_inv x (T * 2 ^ Zpos n) (SpecFloat.iter_pos shr_1 n mrs).
Proof.
  induction n as [n IH|n IH|]; intros T mrs HT Hinv; simpl SpecFloat.iter_pos.
  - replace (Z.pos n~1) with (Z.pos n + Z.pos n + 1) by lia.
    replace (T * 2 ^ (Z.pos n + Z.pos n + 1)) with ((2 * T) * 2 ^ Z.pos n * 2 ^ Z.pos n).
    + apply IH; [|apply IH; [lia|apply shr_inv_step; assumption]].
      assert (0 < 2 ^ Z.pos n) by (apply Z.pow_pos_nonneg; lia). nia.
    + rewrite !Z.pow_add_r by lia. change (2 ^ 1) with 2. ring.
  - replace (Z.pos n~0) with (Z.pos n + Z.pos n) by lia.
    replace (T * 2 ^ (Z.pos n + Z.pos n)) with (T * 2 ^ Z.pos n * 2 ^ Z.pos n).
    + apply IH; [|apply IH; assumption].
      assert (0 < 2 ^ Z.pos n) by (apply Z.pow_pos_nonneg; lia). nia.
    + rewrite Z.pow_add_r by lia. ring.
  - replace (T * 2 ^ 1) with (2 * T) by (change (2 ^ 1) with 2; lia).
    apply shr_inv_step; assumption.
Qed.

Lemma round_of_inv (x T : Z) (mrs : shr_record) :
  0 < T -> shr_inv x T mrs ->
  shr_m mrs = x / T /\
  round_nearest_even (shr_m mrs) (loc_of_shr_record mrs) = round_half_even x T.
Proof.
  intros HT (rem & Hx & Hrem & Hm & Hr & Hs).
  assert (Hdiv : x / T = shr_m mrs).
  { symmetry. apply (Z.div_unique x T (shr_m mrs) rem); lia. }
  assert (Hmod : x mod T = rem).
  { symmetry. apply (Z.mod_unique x T (shr_m mrs) rem); lia. }
  split; [congruence|].
  unfold round_half_even. rewrite Hdiv, Hmod.
  destruct mrs as [m r s]. simpl in *.
  destruct (Z.ltb_spec T (2 * rem)) as [Hlt|Hge].
  - assert (r = true) as -> by (apply Hr; lia).
    assert (s = true) as -> by (apply Hs; lia). reflexivity.
  - destruct (Z.eqb_spec T (2 * rem)) as [Heq|Hne].
    + assert (r = true) as -> by (apply Hr; lia).
      assert (s = false) as ->.
      { destruct s; [|reflexivity]. destruct Hs as [Hs _]. specialize (Hs eq_refl). lia. }
      simpl. rewrite <- Z.negb_odd. destruct (Z.odd m); reflexivity.
    + assert (r = false) as ->.
      { destruct r; [|reflexivity]. destruct Hr as [Hr _]. specialize (Hr eq_refl). lia. }
      simpl. destruct s; reflexivity.
Qed.

Lemma round_half_even_mono (x y T : Z) :
  0 < T -> 0 <= x <= y -> round_half_even x T <= round_half_even y T.
Proof.
  intros HT Hxy. unfold round_half_even.
  pose proof (Z.div_mod x T ltac:(lia)) as Ex.
  pose proof (Z.div_mod y T ltac:(lia)) as Ey.
  pose proof (Z.mod_pos_bound x T HT) as Bx.
  pose proof (Z.mod_pos_bound y T HT) as By.
  set (mx := x / T) in *. set (rx := x mod T) in *.
  set (my := y / T) in *. set (ry := y mod T) in *.
  assert (Hm : mx <= my) by nia.
  destruct (Z.eq_dec mx my) as [Heq|Hne].
  - rewrite <- Heq in *. assert (rx <= ry) by lia.
    destruct (Z.ltb_spec T (2 * rx)), (Z.ltb_spec T (2 * ry)); try lia;
    destruct (Z.eqb_spec T (2 * rx)), (Z.eqb_spec T (2 * ry)); simpl; try lia;
    destruct (Z.odd mx); simpl; lia.
  - assert (mx + 1 <= my) by lia.
    destruct (T <? 2 * rx), (T <? 2 * ry), ((T =? 2 * rx) && Z.odd mx),
      ((T =? 2 * ry) && Z.odd my); lia.
Qed.

Lemma round_half_even_range (x T lo : Z) :
  0 < T -> lo * T <= x -> x < 2 * lo * T ->
  lo <= round_half_even x T <= 2 * lo.
Proof.
  intros HT Hlo Hhi. unfold round_half_even.
  pose proof (Z.div_mod x T ltac:(lia)) as Ex.
  pose proof (Z.mod_pos_bound x T HT) as Bx.
  set (mx := x / T) in *. set (rx := x mod T) in *.
  assert (lo <= mx < 2 * lo) by nia.
  destruct (T <? 2 * rx), ((T =? 2 * rx) && Z.odd mx); lia.
Qed.

Lemma iter_xO_value (p k : positive) :
  Zpos (Pos.iter xO p k) = Zpos p * 2 ^ Zpos k.
Proof.
  rewrite <- Z.shiftl_mul_pow2 by lia. simpl Z.shiftl.
  apply (Pos.iter_swap_gen _ _ Zpos xO (Z.mul 2)). reflexivity.
Qed.

(** Rounding a mantissa that already has 53 digits changes nothing. *)
Lemma binary_round_aux_exact (m : positive) (e : Z) :
  Zpos (digits2_pos m) = 53 -> -1074 <= e ->
  binary_round_aux prec emax false (Zpos m) e loc_Exact =
  if e <=? 971 then S754_finite false m e else S754_infinity false.
Proof.
  intros Hd He.
  assert (Hshift : fexp prec emax (Zdigits2 (Zpos m) + e) - e = 0).
  { simpl Zdigits2. rewrite Hd, fexp_eq. lia. }
  unfold binary_round_aux, shr_fexp. rewrite Hshift.
  cbv beta iota zeta delta [shr shr_record_of_loc shr_m shr_r shr_s
                            loc_of_shr_record round_nearest_even].
  rewrite Hshift. reflexivity.
Qed.

Lemma round_nearest_even_cases (m : Z) (l : location) :
  round_nearest_even m l = m \/ round_nearest_even m l = m + 1.
Proof.
  destruct l as [|[| |]]; simpl; try (left; reflexivity); try (right; reflexivity).
  destruct (Z.even m); [left|right]; reflexivity.
Qed.

(** The two stages of [binary_round_aux]: once the first shift has produced
    a mantissa [m1] at exponent [e1] and the rounding has produced [m2], the
    result is [pack m2 e1]. *)
Lemma binary_round_aux_pack (sx : bool) (mx ex : Z) (lx : location)
    (mrs : shr_record) (e1 : Z) :
  shr_fexp prec emax mx ex lx = (mrs, e1) ->
  let m2 := round_nearest_even (shr_m mrs) (loc_of_shr_record mrs) in
  0 < m2 <= 2 ^ 53 -> -1074 <= e1 -> (2 ^ 52 <= m2 \/ e1 = -1074) ->
  binary_round_aux prec emax sx mx ex lx = pack sx m2 e1.
Proof.
  intros Hshr m2 Hm2 He1 Hcanon.
  unfold binary_round_aux. rewrite Hshr. fold m2.
  unfold pack. destruct (Z.ltb_spec m2 (2 ^ 53)) as [Hlt|Hge].
  - destruct m2 as [|p|p] eqn:Em; try lia.
    assert (Hshift : fexp prec emax (Zdigits2 (Zpos p) + e1) - e1 = 0).
    { simpl Zdigits2. rewrite fexp_eq. pose proof (digits2_bounds p) as [Blo Bhi].
      assert (Zpos (digits2_pos p) <= 53).
      { destruct (Z.leb_spec (Zpos (digits2_pos p)) 53); [assumption|].
        assert (2 ^ 53 <= 2 ^ (Zpos (digits2_pos p) - 1)) by (apply Z.pow_le_mono_r; lia).
        lia. }
      destruct Hcanon as [Hc|Hc]; [|lia].
      assert (Zpos (digits2_pos p) = 53); [|lia].
      apply digits2_unique. change (2 ^ (53 - 1)) with (2 ^ 52). lia. }
    unfold shr_fexp. rewrite Hshift.
    cbv beta iota zeta delta [shr shr_record_of_loc shr_m].
    reflexivity.
  - assert (Em : m2 = 2 ^ 53) by lia. rewrite Em.
    assert (Hshift : fexp prec emax (Zdigits2 (2 ^ 53) + e1) - e1 = 1).
    { change (Zdigits2 (2 ^ 53)) with 54. rewrite fexp_eq. lia. }
    unfold shr_fexp. rewrite Hshift. reflexivity.
Qed.

Lemma int_mantissa_range (p : positive) :
  2 ^ 52 <= int_mantissa (Zpos p) <= 2 ^ 53.
Proof.
  unfold int_mantissa. simpl Zdigits2.
  pose proof (digits2_bounds p) as [Blo Bhi].
  set (d := Zpos (digits2_pos p)) in *.
  assert (Hd : 0 < d) by (unfold d; lia).
  destruct (Z.leb_spec d 53) as [Hle|Hgt].
  - assert (E1 : 2 ^ 52 = 2 ^ (d - 1) * 2 ^ (53 - d)).
    { rewrite <- Z.pow_add_r by lia. f_equal. lia. }
    assert (E2 : 2 ^ 53 = 2 ^ d * 2 ^ (53 - d)).
    { rewrite <- Z.pow_add_r by lia. f_equal. lia. }
    assert (0 < 2 ^ (53 - d)) by (apply Z.pow_pos_nonneg; lia).
    rewrite E1, E2. nia.
  - assert (HT : 0 < 2 ^ (d - 53)) by (apply Z.pow_pos_nonneg; lia).
    assert (E1 : 2 ^ (d - 1) = 2 ^ 52 * 2 ^ (d - 53)).
    { rewrite <- Z.pow_add_r by lia. f_equal. lia. }
    assert (E2 : 2 ^ d = 2 * 2 ^ 52 * 2 ^ (d - 53)).
    { change (2 * 2 ^ 52) with (2 ^ 53). rewrite <- Z.pow_add_r by lia. f_equal. lia. }
    change (2 ^ 53) with (2 * 2 ^ 52).
    apply round_half_even_range; lia.
Qed.

Lemma of_Z_pack (p : positive) :
  of_Z (Zpos p) = pack false (int_mantissa (Zpos p)) (Zpos (digits2_pos p) - 53).
Proof.
  assert (Hf : fexp prec emax (Zpos (digits2_pos p) + 0) - 0 = Zpos (digits2_pos p) - 53).
  { rewrite fexp_eq. lia. }
  pose proof (int_mantissa_range p) as Hrange.
  unfold int_mantissa in *. simpl Zdigits2 in *.
  pose proof (digits2_bounds p) as [Blo Bhi].
  unfold of_Z, binary_normalize, binary_round.
  set (d := Zpos (digits2_pos p)) in *.
  destruct (Z.leb_spec d 53) as [Hle|Hgt].
  - assert (Hsh : exists mz, shl_align p 0 (fexp prec emax (d + 0)) = (mz, d - 53) /\
                   Zpos mz = Zpos p * 2 ^ (53 - d)).
    { unfold shl_align. rewrite Hf. destruct (d - 53) as [|k|k] eqn:Ek; try lia.
      - exists p. split; [reflexivity|]. replace (53 - d) with 0 by lia.
        change (2 ^ 0) with 1. lia.
      - exists (Pos.iter xO p k). rewrite <- Ek. split; [f_equal; lia|].
        rewrite iter_xO_value. f_equal. f_equal. lia. }
    destruct Hsh as (mz & -> & Hmz).
    assert (Hb : 2 ^ 52 <= Zpos mz < 2 ^ 53).
    { rewrite Hmz.
      assert (E1 : 2 ^ 52 = 2 ^ (d - 1) * 2 ^ (53 - d)).
      { rewrite <- Z.pow_add_r by lia. f_equal. lia. }
      assert (E2 : 2 ^ 53 = 2 ^ d * 2 ^ (53 - d)).
      { rewrite <- Z.pow_add_r by lia. f_equal. lia. }
      assert (0 < 2 ^ (53 - d)) by (apply Z.pow_pos_nonneg; lia).
      rewrite E1, E2. nia. }
    rewrite binary_round_aux_exact.
    + unfold pack. rewrite <- Hmz.
      assert ((Zpos mz <? 2 ^ 53) = true) as -> by (apply Z.ltb_lt; lia).
      reflexivity.
    + apply digits2_unique. change (2 ^ (53 - 1)) with (2 ^ 52). lia.
    + lia.
  - assert (Hsh : shl_align p 0 (fexp prec emax (d + 0)) = (p, 0)).
    { unfold shl_align. rewrite Hf. destruct (d - 53) as [|k|k] eqn:Ek; try lia.
      reflexivity. }
    rewrite Hsh.
    destruct (d - 53) as [|k|k] eqn:Ek; try lia.
    assert (Hinv : shr_inv (Zpos p) (2 ^ Zpos k)
                     (SpecFloat.iter_pos shr_1 k (Build_shr_record (Zpos p) false false))).
    { replace (2 ^ Zpos k) with (1 * 2 ^ Zpos k) by lia.
      apply shr_inv_iter; [lia|]. apply shr_inv_init. lia. }
    assert (HT : 0 < 2 ^ Zpos k) by (apply Z.pow_pos_nonneg; lia).
    destruct (round_of_inv _ _ _ HT Hinv) as [_ Hround].
    rewrite (binary_round_aux_pack false (Zpos p) 0 loc_Exact
               (SpecFloat.iter_pos shr_1 k (Build_shr_record (Zpos p) false false))
               (Zpos k)).
    + rewrite Hround. reflexivity.
    + unfold shr_fexp. simpl Zdigits2. fold d. rewrite Z.add_0_r in Hf.
      replace (fexp prec emax (d + 0) - 0) with (Zpos k) by (rewrite Z.add_0_r; lia).
      reflexivity.
    + rewrite Hround. lia.
    + lia.
    + left. rewrite Hround. lia.
Qed.

Lemma digits2_mono (p q : positive) :
  Zpos p <= Zpos q -> Zpos (digits2_pos p) <= Zpos (digits2_pos q).
Proof.
  intros Hpq. pose proof (digits2_bounds p) as [Bp _].
  pose proof (digits2_bounds q) as [_ Bq].
  destruct (Z.leb_spec (Zpos (digits2_pos p)) (Zpos (digits2_pos q))); [assumption|].
  assert (2 ^ Zpos (digits2_pos q) <= 2 ^ (Zpos (digits2_pos p) - 1))
    by (apply Z.pow_le_mono_r; lia).
  lia.
Qed.

Lemma int_mantissa_mono (p q : positive) :
  Zpos p <= Zpos q -> digits2_pos p = digits2_pos q ->
  int_mantissa (Zpos p) <= int_mantissa (Zpos q).
Proof.
  intros Hpq Hd. unfold int_mantissa. simpl Zdigits2. rewrite Hd.
  set (d := Zpos (digits2_pos q)).
  destruct (Z.leb_spec d 53).
  - assert (0 < 2 ^ (53 - d)) by (apply Z.pow_pos_nonneg; lia). nia.
  - apply round_half_even_mono; [apply Z.pow_pos_nonneg|]; lia.
Qed.

(** Conversion of positive integers is monotone: a finite [float(y)] bounds
    [float(x)] for every [0 < x <= y], exponent first, mantissa next. *)
Lemma of_Z_mono (x y : Z) (my : positive) (ey : Z) :
  0 < x <= y -> of_Z y = S754_finite false my ey ->
  exists mx ex,
    of_Z x = S754_finite false mx ex /\
    Zpos (digits2_pos mx) = 53 /\ Zpos (digits2_pos my) = 53 /\
    -52 <= ex /\ ey <= 971 /\ (ex < ey \/ (ex = ey /\ Zpos mx <= Zpos my)).
Proof.
  intros Hxy Hy.
  destruct x as [|p|p]; try lia. destruct y as [|q|q]; try lia.
  rewrite of_Z_pack in *.
  pose proof (int_mantissa_range p) as Rp.
  pose proof (int_mantissa_range q) as Rq.
  pose proof (digits2_mono p q ltac:(lia)) as Hd.
  assert (Hm : Zpos (digits2_pos p) = Zpos (digits2_pos q) ->
               int_mantissa (Zpos p) <= int_mantissa (Zpos q)).
  { intros E. apply int_mantissa_mono; [lia|]. congruence. }
  set (dp := Zpos (digits2_pos p)) in *. set (dq := Zpos (digits2_pos q)) in *.
  assert (Hdp : 1 <= dp) by (unfold dp; lia).
  set (mp := int_mantissa (Zpos p)) in *. set (mq := int_mantissa (Zpos q)) in *.
  clearbody mp mq dp dq. clear Hxy.
  assert (D52 : forall m : positive, Zpos m = 2 ^ 52 -> Zpos (digits2_pos m) = 53).
  { intros m E. apply digits2_unique. rewrite E. change (2 ^ (53 - 1)) with (2 ^ 52). lia. }
  assert (D53 : forall m : Z, 2 ^ 52 <= m < 2 ^ 53 -> Zpos (digits2_pos (Z.to_pos m)) = 53).
  { intros m E. apply digits2_unique. rewrite Z2Pos.id by lia.
    change (2 ^ (53 - 1)) with (2 ^ 52). lia. }
  unfold pack in *.
  destruct (Z.ltb_spec mq (2 ^ 53)) as [Hq|Hq].
  - destruct (Z.leb_spec (dq - 53) 971) as [Hq'|Hq']; [|discriminate].
    injection Hy as <- <-.
    destruct (Z.ltb_spec mp (2 ^ 53)) as [Hp|Hp].
    + assert ((dp - 53 <=? 971) = true) as -> by lia.
      exists (Z.to_pos mp), (dp - 53).
      rewrite !D53 by lia. rewrite !Z2Pos.id by lia.
      repeat split; lia.
    + assert (dp < dq).
      { destruct (Z.eq_dec dp dq) as [E|E]; [specialize (Hm E)|]; lia. }
      assert ((dp - 53 + 1 <=? 971) = true) as -> by lia.
      exists 4503599627370496%positive, (dp - 53 + 1).
      rewrite D53 by lia. rewrite Z2Pos.id by lia.
      repeat split; try lia.
  - destruct (Z.leb_spec (dq - 53 + 1) 971) as [Hq'|Hq']; [|discriminate].
    injection Hy as <- <-.
    destruct (Z.ltb_spec mp (2 ^ 53)) as [Hp|Hp].
    + assert ((dp - 53 <=? 971) = true) as -> by lia.
      exists (Z.to_pos mp), (dp - 53).
      rewrite D53 by lia.
      repeat split; lia.
    + assert ((dp - 53 + 1 <=? 971) = true) as -> by lia.
      exists 4503599627370496%positive, (dp - 53 + 1).
      repeat split; try lia; reflexivity.
Qed.

Lemma shr_m_record_of_loc (m : Z) (l : location) :
  shr_m (shr_record_of_loc m l) = m.
Proof. destruct l as [|[| |]]; reflexivity. Qed.

Lemma loc_of_record_of_loc (m : Z) (l : location) :
  loc_of_shr_record (shr_record_of_loc m l) = l.
Proof. destruct l as [|[| |]]; reflexivity. Qed.

Lemma shr_m_shr_1 (p : positive) (l : location) :
  shr_m (shr_1 (shr_record_of_loc (Zpos p) l)) = Zpos p / 2.
Proof.
  rewrite <- Z.div2_div.
  destruct l as [|[| |]], p as [p|p|]; reflexivity.
Qed.

Lemma compare_cont_le (m c : positive) :
  Zpos m <= Zpos c ->
  match PosDef.Pos.compare_cont Eq m c with Gt => false | _ => true end = true.
Proof.
  intros H. pose proof (Pos.compare_spec m c) as S.
  unfold Pos.compare in S. destruct S; try reflexivity. lia.
Qed.

Lemma leb_finite_one (m : positive) (e : Z) :
  e < -52 \/ (e = -52 /\ Zpos m <= 4503599627370496) ->
  leb (S754_finite false m e) one = true.
Proof.
  intros H. unfold leb, SFleb, one, SFcompare.
  destruct (Z.compare_spec e (-52)) as [E|E|E]; [|reflexivity|lia].
  apply compare_cont_le. lia.
Qed.

Lemma pack_in_unit_interval (m e : Z) :
  0 < m -> e <= -53 -> in_unit_interval (pack false m e) = true.
Proof.
  intros Hm He. unfold pack, in_unit_interval.
  destruct (m <? 2 ^ 53).
  - assert ((e <=? 971) = true) as -> by lia.
    rewrite leb_finite_one by lia. reflexivity.
  - assert ((e + 1 <=? 971) = true) as -> by lia.
    rewrite leb_finite_one by lia. reflexivity.
Qed.

(** Rounding a quotient below one gives a float in [0, 1]. *)
Lemma binary_round_aux_unit (q e : Z) (l : location) :
  2 <= q -> Zdigits2 q + e <= 0 ->
  0 <= fexp prec emax (Zdigits2 q + e) - e <= 1 ->
  in_unit_interval (binary_round_aux prec emax false q e l) = true.
Proof.
  intros Hq Hd Hn. destruct q as [|p|p]; try lia. simpl Zdigits2 in *.
  pose proof (digits2_bounds p) as [Blo Bhi].
  set (d := Zpos (digits2_pos p)) in *.
  assert (Hd2 : 2 <= d).
  { destruct (Z.leb_spec 2 d); [assumption|].
    assert (2 ^ d <= 2 ^ 1) by (apply Z.pow_le_mono_r; lia).
    change (2 ^ 1) with 2 in *. lia. }
  rewrite fexp_eq in Hn.
  assert (Hcase : Z.max (d + e - 53) (-1074) - e = 0 \/ Z.max (d + e - 53) (-1074) - e = 1)
    by lia.
  destruct Hcase as [H0|H1].
  - assert (Hd53 : d <= 53) by lia.
    assert (P53 : 2 ^ d <= 2 ^ 53) by (apply Z.pow_le_mono_r; lia).
    assert (Hc : d = 53 -> 2 ^ 52 <= Zpos p).
    { intros E. rewrite E in Blo. exact Blo. }
    pose proof (round_nearest_even_cases (Zpos p) l) as Hr.
    rewrite (binary_round_aux_pack false (Zpos p) e l (shr_record_of_loc (Zpos p) l) e).
    + rewrite shr_m_record_of_loc, loc_of_record_of_loc.
      apply pack_in_unit_interval; lia.
    + unfold shr_fexp. simpl Zdigits2. fold d. rewrite fexp_eq, H0. reflexivity.
    + rewrite shr_m_record_of_loc, loc_of_record_of_loc. lia.
    + lia.
    + rewrite shr_m_record_of_loc, loc_of_record_of_loc.
      destruct (Z.eq_dec d 53); [left|right]; lia.
  - assert (Hd54 : d <= 54) by lia.
    assert (P54 : 2 ^ d <= 2 * 2 ^ 53).
    { change (2 * 2 ^ 53) with (2 ^ 54). apply Z.pow_le_mono_r; lia. }
    pose proof (Z.div_mod (Zpos p) 2 ltac:(lia)) as Ediv.
    pose proof (Z.mod_pos_bound (Zpos p) 2 ltac:(lia)) as Bmod.
    assert (Hhalf : 1 <= Zpos p / 2 < 2 ^ 53) by lia.
    assert (Hc : d = 54 -> 2 ^ 52 <= Zpos p / 2).
    { intros E. rewrite E in Blo. change (2 ^ (54 - 1)) with (2 * 2 ^ 52) in Blo. lia. }
    set (mrs := shr_1 (shr_record_of_loc (Zpos p) l)).
    pose proof (round_nearest_even_cases (shr_m mrs) (loc_of_shr_record mrs)) as Hr.
    assert (Hm : shr_m mrs = Zpos p / 2) by apply shr_m_shr_1.
    rewrite (binary_round_aux_pack false (Zpos p) e l mrs (e + 1)).
    + apply pack_in_unit_interval; lia.
    + unfold shr_fexp. simpl Zdigits2. fold d. rewrite fexp_eq, H1. reflexivity.
    + lia.
    + lia.
    + destruct (Z.eq_dec d 54); [left|right]; lia.
Qed.

Lemma digits2_le (p : positive) (n : Z) :
  Zpos p < 2 ^ n -> Zpos (digits2_pos p) <= n.
Proof.
  intros H. pose proof (digits2_bounds p) as [Blo _].
  destruct (Z.leb_spec (Zpos (digits2_pos p)) n) as [|Hlt]; [assumption|].
  assert (2 ^ n <= 2 ^ (Zpos (digits2_pos p) - 1)) by (apply Z.pow_le_mono_r; lia).
  lia.
Qed.

Lemma digits2_ge (p : positive) (n : Z) :
  2 ^ (n - 1) <= Zpos p -> n <= Zpos (digits2_pos p).
Proof.
  intros H. pose proof (digits2_bounds p) as [_ Bhi].
  destruct (Z.leb_spec n (Zpos (digits2_pos p))) as [|Hlt]; [assumption|].
  assert (2 ^ Zpos (digits2_pos p) <= 2 ^ (n - 1)) by (apply Z.pow_le_mono_r; lia).
  lia.
Qed.

Lemma new_location_zero (n : Z) : new_location n 0 = loc_Exact.
Proof. unfold new_location. destruct (Z.even n); reflexivity. Qed.

(** Bounds on the quotient of two 53-digit mantissas, the dividend scaled by
    [2 * K2]. *)
Lemma quotient_bounds (A mx my K2 q r : Z) :
  0 < A -> 0 < K2 ->
  A <= mx < 2 * A -> A <= my < 2 * A ->
  mx * (2 * K2) = my * q + r -> 0 <= r < my ->
  K2 <= q < 4 * K2 /\ (mx < my -> q < 2 * K2) /\ (mx = my -> q = 2 * K2 /\ r = 0).
Proof.
  intros HA HK Hx Hy E Hr. split; [split|split].
  - destruct (Z.leb_spec K2 q) as [|Hlt]; [assumption|exfalso].
    assert (my * (q + 1) <= my * K2) by (apply Z.mul_le_mono_nonneg_l; lia).
    assert (my * K2 < 2 * A * K2) by (apply Z.mul_lt_mono_pos_r; lia).
    assert (A * (2 * K2) <= mx * (2 * K2)) by (apply Z.mul_le_mono_nonneg_r; lia).
    lia.
  - destruct (Z.ltb_spec q (4 * K2)) as [|Hge]; [assumption|exfalso].
    assert (my * (4 * K2) <= my * q) by (apply Z.mul_le_mono_nonneg_l; lia).
    assert (A * (4 * K2) <= my * (4 * K2)) by (apply Z.mul_le_mono_nonneg_r; lia).
    assert (mx * (2 * K2) < 2 * A * (2 * K2)) by (apply Z.mul_lt_mono_pos_r; lia).
    lia.
  - intros Hlt. destruct (Z.ltb_spec q (2 * K2)) as [|Hge]; [assumption|exfalso].
    assert (my * (2 * K2) <= my * q) by (apply Z.mul_le_mono_nonneg_l; lia).
    assert (mx * (2 * K2) < my * (2 * K2)) by (apply Z.mul_lt_mono_pos_r; lia).
    lia.
  - intros ->. assert (Hq : my * (2 * K2 - q) = r) by lia.
    assert (2 * K2 - q = 0); [|lia].
    destruct (Z.lt_trichotomy (2 * K2 - q) 0) as [H|[H|H]]; [exfalso|assumption|exfalso].
    + assert (my * (2 * K2 - q) <= my * (-1)) by (apply Z.mul_le_mono_nonneg_l; lia). lia.
    + assert (my * 1 <= my * (2 * K2 - q)) by (apply Z.mul_le_mono_nonneg_l; lia). lia.
Qed.

(** A quotient of two positive floats with 53-digit mantissas, the dividend
    not above the divisor, lies in [0, 1]. *)
Lemma div_in_unit_interval (mx my : positive) (ex ey : Z) :
  Zpos (digits2_pos mx) = 53 -> Zpos (digits2_pos my) = 53 ->
  -52 <= ex -> ey <= 971 ->
  ex < ey \/ (ex = ey /\ Zpos mx <= Zpos my) ->
  in_unit_interval (div (S754_finite false mx ex) (S754_finite false my ey)) = true.
Proof.
  intros Dx Dy Hex Hey Hle.
  pose proof (digits2_bounds mx) as Bx. pose proof (digits2_bounds my) as By.
  rewrite Dx in Bx. rewrite Dy in By.
  change (2 ^ (53 - 1)) with (2 ^ 52) in Bx, By.
  change (2 ^ 53) with (2 * 2 ^ 52) in Bx, By.
  unfold div, SFdiv, SFdiv_core_binary.
  change (Zdigits2 (Zpos mx)) with (Zpos (digits2_pos mx)).
  change (Zdigits2 (Zpos my)) with (Zpos (digits2_pos my)).
  rewrite Dx, Dy, fexp_eq.
  set (e' := Z.min (Z.max (53 + ex - (53 + ey) - 53) (-1074)) (ex - ey)).
  assert (He' : e' = Z.max (ex - ey - 53) (-1074)) by (unfold e'; lia).
  assert (Hs : 51 <= ex - ey - e' <= 53) by lia.
  destruct (ex - ey - e') as [|k|k] eqn:Es; try lia.
  rewrite Z.shiftl_mul_pow2 by lia.
  assert (HK : 2 ^ Zpos k = 2 * 2 ^ (Zpos k - 1)).
  { rewrite <- Z.pow_succ_r by lia. f_equal. lia. }
  assert (HK2 : 0 < 2 ^ (Zpos k - 1)) by (apply Z.pow_pos_nonneg; lia).
  pose proof (Z_div_mod (Zpos mx * 2 ^ Zpos k) (Zpos my) ltac:(lia)) as Hdm.
  destruct (Z.div_eucl (Zpos mx * 2 ^ Zpos k) (Zpos my)) as [q r].
  destruct Hdm as [Eq Hr]. rewrite HK in Eq.
  destruct (quotient_bounds (2 ^ 52) (Zpos mx) (Zpos my) (2 ^ (Zpos k - 1)) q r)
    as (Hq & Hlt & Heq); try assumption; try lia.
  simpl xorb.
  destruct (Z.eq_dec ex ey) as [Ee|Ee].
  - destruct (Z.eq_dec (Zpos mx) (Zpos my)) as [Em|Em].
    + destruct (Heq Em) as [-> ->].
      assert (Ek : Zpos k = 53) by lia.
      assert (Ee' : e' = -53) by lia.
      rewrite Ek, Ee', new_location_zero. reflexivity.
    + assert (q < 2 * 2 ^ (Zpos k - 1)) by (apply Hlt; lia).
      destruct q as [|pq|pq]; try lia.
      assert (Dq1 : Zpos (digits2_pos pq) <= Zpos k).
      { apply digits2_le. rewrite HK. assumption. }
      assert (Dq2 : Zpos k - 1 < Zpos (digits2_pos pq)).
      { assert (Zpos k <= Zpos (digits2_pos pq)); [|lia].
        apply digits2_ge. lia. }
      apply binary_round_aux_unit.
      * assert (2 ^ 1 <= 2 ^ (Zpos k - 1)) by (apply Z.pow_le_mono_r; lia).
        change (2 ^ 1) with 2 in *. lia.
      * change (Zdigits2 (Zpos pq)) with (Zpos (digits2_pos pq)). lia.
      * change (Zdigits2 (Zpos pq)) with (Zpos (digits2_pos pq)).
        rewrite fexp_eq. lia.
  - destruct q as [|pq|pq]; try lia.
    assert (Dq1 : Zpos (digits2_pos pq) <= Zpos k + 1).
    { apply digits2_le. replace (Zpos k + 1) with (Z.succ (Zpos k)) by lia.
      rewrite Z.pow_succ_r, HK by lia. lia. }
    assert (Dq2 : Zpos k <= Zpos (digits2_pos pq)).
    { apply digits2_ge. lia. }
    apply binary_round_aux_unit.
    * assert (2 ^ 1 <= 2 ^ (Zpos k - 1)) by (apply Z.pow_le_mono_r; lia).
      change (2 ^ 1) with 2 in *. lia.
    * change (Zdigits2 (Zpos pq)) with (Zpos (digits2_pos pq)). lia.
    * change (Zdigits2 (Zpos pq)) with (Zpos (digits2_pos pq)).
      rewrite fexp_eq. lia.
Qed.


(** ** The monad and the arrays *)

Lemma bind_ok {A B} (a : A) (f : A -> result B) : mbind f (Ok a) = f a.
Proof. reflexivity. Qed.

Lemma run_bind_pure_ok {G A B} (a : A) (f : A -> Run G B) (g : G) :
  mbind f (pure (Ok a)) g = f a g.
Proof. reflexivity. Qed.

Lemma run_bind_draw {G A B} (d : G -> A * G) (f : A -> Run G B) (g : G) :
  mbind f (draw d) g = f (fst (d g)) (snd (d g)).
Proof. unfold mbind, run_bind, draw. destruct (d g); reflexivity. Qed.

Lemma index_of_nat (len k : nat) :
  (k < len)%nat -> Np.index len (Z.of_nat k) = Ok k.
Proof.
  intros Hk. unfold Np.index.
  assert ((Z.of_nat k <? 0) = false) as -> by lia.
  assert (((0 <=? Z.of_nat k) && (Z.of_nat k <? Z.of_nat len)) = true) as -> by lia.
  rewrite Nat2Z.id. reflexivity.
Qed.

Lemma setitem_middle (pre post : list float) (x v : float) :
  Np.setitem (pre ++ x :: post) (Z.of_nat (length pre)) v = Ok (pre ++ v :: post).
Proof.
  unfold Np.setitem. rewrite index_of_nat.
  - rewrite bind_ok. f_equal.
    rewrite insert_app_r_alt by lia. rewrite Nat.sub_diag. reflexivity.
  - rewrite length_app. simpl. lia.
Qed.

Lemma getitem_middle (pre post : list float) (x : float) :
  Np.getitem (pre ++ x :: post) (Z.of_nat (length pre)) = Ok x.
Proof.
  unfold Np.getitem. rewrite index_of_nat.
  - rewrite bind_ok. rewrite list_lookup_middle by reflexivity. reflexivity.
  - rewrite length_app. simpl. lia.
Qed.

Lemma count_failures_cons (t : float * float) (l : list (float * float)) :
  count_failures (t :: l) = (if fails t then 1 else 0) + count_failures l.
Proof.
  unfold count_failures. rewrite filter_cons.
  destruct (decide (fails t = true)) as [H|H].
  - rewrite H. simpl length. lia.
  - destruct (fails t); [congruence|]. simpl. lia.
Qed.

Lemma count_failures_bounds (l : list (float * float)) :
  0 <= count_failures l <= Z.of_nat (length l).
Proof.
  induction l as [|t l IH]; [unfold count_failures; simpl; lia|].
  rewrite count_failures_cons. simpl length. destruct (fails t); lia.
Qed.

(** ** Conversions and quotients of counts *)

Lemma of_Z_positive (n : Z) :
  0 < n ->
  (exists m e, of_Z n = S754_finite false m e) \/ of_Z n = S754_infinity false.
Proof.
  intros Hn. destruct n as [|p|p]; try lia.
  rewrite of_Z_pack. unfold pack.
  destruct (_ <? _); destruct (_ <=? _); eauto.
Qed.

Lemma py_float_positive (n : Z) (d : float) :
  0 < n -> py_float n = Ok d ->
  d = of_Z n /\ exists m e, d = S754_finite false m e.
Proof.
  intros Hn. unfold py_float.
  destruct (of_Z_positive n Hn) as [(m & e & E)|E]; rewrite E; simpl.
  - intros [= <-]. eauto.
  - discriminate.
Qed.

(** A count between 0 and [N] converts without overflow when [N] does, and
    its quotient by [float(N)] is in [0, 1]. *)
Lemma count_over_N (f n : Z) (d : float) :
  0 <= f <= n -> 0 < n -> py_float n = Ok d ->
  py_float f = Ok (of_Z f) /\ is_zero d = false /\
  in_unit_interval (div (of_Z f) d) = true.
Proof.
  intros Hf Hn Hd.
  destruct (py_float_positive n d Hn Hd) as (-> & my & ey & Ey).
  rewrite Ey. split; [|split; [reflexivity|]].
  - destruct (Z.eq_dec f 0) as [->|Hne]; [reflexivity|].
    destruct (of_Z_mono f n my ey ltac:(lia) Ey) as (mx & ex & Ex & _).
    unfold py_float. rewrite Ex. reflexivity.
  - destruct (Z.eq_dec f 0) as [->|Hne]; [reflexivity|].
    destruct (of_Z_mono f n my ey ltac:(lia) Ey) as (mx & ex & Ex & Dx & Dy & Hex & Hey & Hle).
    rewrite Ex. apply div_in_unit_interval; assumption.
Qed.

(** ** The simulation loop *)

Lemma count_failures_app (l1 l2 : list (float * float)) :
  count_failures (l1 ++ l2) = count_failures l1 + count_failures l2.
Proof.
  induction l1 as [|t l1 IH]; [reflexivity|].
  simpl app. rewrite !count_failures_cons, IH. lia.
Qed.

Lemma range_length (N : Z) : length (range N) = Z.to_nat N.
Proof. unfold range. rewrite length_map, length_seq. reflexivity. Qed.

Lemma range_take (N : Z) (k : nat) :
  (k <= Z.to_nat N)%nat -> take k (range N) = map Z.of_nat (seq 0 k).
Proof.
  intros Hk. unfold range. rewrite firstn_map, take_seq.
  rewrite Nat.min_l by assumption. reflexivity.
Qed.

Section Hoop.

Variable G : Type.
Variable norm_rvs : float -> float -> G -> float * G.
Variable heap : nat -> nat -> float.

Local Abbreviation trials n g := (fst (draw_trials norm_rvs n g)).
Local Abbreviation rest n g := (snd (draw_trials norm_rvs n g)).

Lemma draw_trials_length (n : nat) (g : G) :
  length (fst (draw_trials norm_rvs n g)) = n.
Proof.
  revert g. induction n as [|n IH]; intros g; simpl; [reflexivity|].
  destruct (simulated_stress G norm_rvs g) as [s g1].
  destruct (simulated_yield_strength G norm_rvs g1) as [y g2].
  specialize (IH g2). destruct (draw_trials norm_rvs n g2) as [l g3].
  simpl in *. lia.
Qed.

(** One iteration at index [length pre_s] writes the trial's outputs into the
    next free cells and counts it when it fails. *)
Lemma simulation_step_spec (f : Z) (pre_s post_s pre_y post_y : list float)
    (x x' : float) (g : G) :
  length pre_s = length pre_y ->
  simulation_step G norm_rvs (Z.of_nat (length pre_s))
    (HoopState f (pre_s ++ x :: post_s) (pre_y ++ x' :: post_y)) g =
  let (s, g1) := simulated_stress G norm_rvs g in
  let (y, g2) := simulated_yield_strength G norm_rvs g1 in
  (Ok (HoopState (f + (if fails (s, y) then 1 else 0))
         (pre_s ++ s :: post_s) (pre_y ++ y :: post_y)), g2).
Proof.
  intros Hlen. unfold simulation_step. rewrite run_bind_draw.
  destruct (simulated_stress G norm_rvs g) as [s g1]. simpl fst; simpl snd.
  simpl stresses. rewrite setitem_middle, run_bind_pure_ok, run_bind_draw.
  destruct (simulated_yield_strength G norm_rvs g1) as [y g2]. simpl fst; simpl snd.
  simpl yield_strengths. rewrite Hlen, setitem_middle, run_bind_pure_ok.
  rewrite <- Hlen, getitem_middle, run_bind_pure_ok.
  rewrite Hlen, getitem_middle, run_bind_pure_ok.
  unfold mret, run_ret, fails. simpl.
  destruct (Np.gt s y); rewrite ?Z.add_0_r; reflexivity.
Qed.

Lemma draw_trials_app (n m : nat) (g : G) :
  draw_trials norm_rvs (n + m) g =
  (trials n g ++ trials m (rest n g), rest m (rest n g)).
Proof.
  revert g. induction n as [|n IH]; intros g; simpl.
  - destruct (draw_trials norm_rvs m g); reflexivity.
  - destruct (simulated_stress G norm_rvs g) as [s g1].
    destruct (simulated_yield_strength G norm_rvs g1) as [y g2].
    rewrite IH. destruct (draw_trials norm_rvs n g2) as [l g3]. reflexivity.
Qed.

(** [m] iterations from index [length pre_s] on: the next [m] cells of both
    arrays receive the outputs of [m] trials, the cells after them are left as
    they were, and [failures] grows by the number of failing trials. *)
Lemma simulation_prefix_spec (m : nat) :
  forall (f : Z) (pre_s post_s pre_y post_y : list float) (g : G),
  length pre_s = length pre_y ->
  (m <= length post_s)%nat -> (m <= length post_y)%nat ->
  for_each (map Z.of_nat (seq (length pre_s) m)) (simulation_step G norm_rvs)
    (HoopState f (pre_s ++ post_s) (pre_y ++ post_y)) g =
  (Ok (HoopState (f + count_failures (trials m g))
         (pre_s ++ map fst (trials m g) ++ drop m post_s)
         (pre_y ++ map snd (trials m g) ++ drop m post_y)), rest m g).
Proof.
  induction m as [|m IH]; intros f pre_s post_s pre_y post_y g Hlen Hs Hy.
  - simpl. unfold mret, run_ret, count_failures. simpl.
    rewrite Z.add_0_r, !drop_0. reflexivity.
  - destruct post_s as [|x post_s]; [simpl in Hs; lia|].
    destruct post_y as [|x' post_y]; [simpl in Hy; lia|].
    simpl seq. simpl map. simpl for_each.
    unfold mbind at 1. unfold run_bind.
    rewrite simulation_step_spec by assumption.
    simpl draw_trials.
    destruct (simulated_stress G norm_rvs g) as [s g1].
    destruct (simulated_yield_strength G norm_rvs g1) as [y g2].
    specialize (IH (f + (if fails (s, y) then 1 else 0))
                  (pre_s ++ [s]) post_s (pre_y ++ [y]) post_y g2).
    rewrite !length_app in IH. simpl length in IH.
    rewrite <- !app_assoc in IH. simpl app in IH.
    replace (length pre_s + 1)%nat with (S (length pre_s)) in IH by lia.
    rewrite IH by (simpl in *; lia).
    destruct (draw_trials norm_rvs m g2) as [ts g3].
    simpl fst; simpl snd.
    rewrite count_failures_cons. simpl map. simpl drop.
    replace (f + (if fails (s, y) then 1 else 0) + count_failures ts)
      with (f + ((if fails (s, y) then 1 else 0) + count_failures ts)) by lia.
    rewrite <- ?app_assoc. reflexivity.
Qed.

(** The first [k] iterations of the loop over [range(N)], from the state the
    cell starts the loop in. *)
Lemma simulation_iterations (N : Z) (k : nat) (a0 a1 : list float) (g : G) :
  Np.empty (heap 0) N = Ok a0 -> Np.empty (heap 1) N = Ok a1 ->
  (k <= Z.to_nat N)%nat ->
  for_each (take k (range N)) (simulation_step G norm_rvs) (HoopState 0 a0 a1) g =
  (Ok (HoopState (count_failures (trials k g))
         (map fst (trials k g) ++ drop k a0)
         (map snd (trials k g) ++ drop k a1)), rest k g).
Proof.
  unfold Np.empty. destruct (N <? 0); [discriminate|].
  intros [= <-] [= <-] Hk. rewrite range_take by assumption.
  pose proof (simulation_prefix_spec k 0 [] (map (heap 0) (seq 0 (Z.to_nat N)))
                [] (map (heap 1) (seq 0 (Z.to_nat N))) g) as H.
  simpl in H. rewrite H by (rewrite ?length_map, ?length_seq; lia).
  reflexivity.
Qed.

(** The simulation cell runs [N] trials: the arrays hold their outputs and
    [failures] is the number of failing ones. *)
Lemma simulation_cell_run (N : Z) (g : G) :
  0 <= N ->
  simulation_cell G norm_rvs heap N g =
  (Ok (HoopState (count_failures (trials (Z.to_nat N) g))
         (map fst (trials (Z.to_nat N) g))
         (map snd (trials (Z.to_nat N) g))), rest (Z.to_nat N) g).
Proof.
  intros HN. unfold simulation_cell.
  assert (E0 : Np.empty (heap 0) N = Ok (map (heap 0) (seq 0 (Z.to_nat N)))).
  { unfold Np.empty. assert ((N <? 0) = false) as -> by lia. reflexivity. }
  assert (E1 : Np.empty (heap 1) N = Ok (map (heap 1) (seq 0 (Z.to_nat N)))).
  { unfold Np.empty. assert ((N <? 0) = false) as -> by lia. reflexivity. }
  rewrite E0, E1, !run_bind_pure_ok.
  pose proof (simulation_iterations N (Z.to_nat N) _ _ g E0 E1 ltac:(lia)) as H.
  assert (Hall : take (Z.to_nat N) (range N) = range N)
    by (rewrite <- range_length; apply firstn_all).
  rewrite Hall in H. rewrite H.
  rewrite !drop_ge, !app_nil_r by (rewrite length_map, length_seq; lia).
  reflexivity.
Qed.

(** The experiment on [N > 0] trials: the count of failing trials over
    [float(N)], the generator left after the draws of [N] trials. *)
Lemma run_failure_probability_run (N : Z) (d : float) (g : G) :
  0 < N -> py_float N = Ok d ->
  run_failure_probability G norm_rvs heap N g =
  (Ok (PyFloat (div (of_Z (count_failures (trials (Z.to_nat N) g))) d)),
   rest (Z.to_nat N) g).
Proof.
  intros HN Hd. unfold run_failure_probability.
  unfold mbind, run_bind. rewrite simulation_cell_run by lia.
  unfold pure, probability_cell. rewrite Hd. simpl failures.
  pose proof (count_failures_bounds (trials (Z.to_nat N) g)) as Hb.
  rewrite draw_trials_length in Hb.
  destruct (count_over_N (count_failures (trials (Z.to_nat N) g)) N d)
    as (Hf & Hz & _); [lia|assumption|assumption|].
  unfold truediv_float. rewrite bind_ok, Hf, bind_ok, Hz. reflexivity.
Qed.

End Hoop.

(** ** The integration loop *)

Lemma py_add_floats (K : float -> pyval) (x y : float) :
  K = PyFloat \/ K = NpFloat64 -> py_add (K x) (K y) = Ok (K (add x y)).
Proof. intros [->| ->]; reflexivity. Qed.

Lemma py_add_int_0 (K : float -> pyval) (y : float) :
  K = PyFloat \/ K = NpFloat64 -> py_add (PyInt 0) (K y) = Ok (K (add zero y)).
Proof. intros [->| ->]; reflexivity. Qed.

Lemma for_each_cons {G A St} (i : A) (l : list A) (body : A -> St -> Run G St)
    (st : St) (g : G) :
  for_each (i :: l) body st g =
  match body i st g with
  | (Ok st', g') => for_each l body st' g'
  | (Raise e, g') => (Raise e, g')
  end.
Proof. reflexivity. Qed.

Section Integration.

Variable G : Type.
Variable K : float -> pyval.
Variable sample : G -> float * G.
Variable trial : Run G pyval.

Hypothesis K_float : K = PyFloat \/ K = NpFloat64.
Hypothesis trial_sample : forall g, trial g = (Ok (K (fst (sample g))), snd (sample g)).

Local Abbreviation values n g := (fst (draw_values sample n g)).
Local Abbreviation rest n g := (snd (draw_values sample n g)).

Lemma draw_values_length (n : nat) (g : G) : length (values n g) = n.
Proof.
  revert g. induction n as [|n IH]; intros g; simpl; [reflexivity|].
  destruct (sample g) as [v g1]. specialize (IH g1).
  destruct (draw_values sample n g1). simpl in *. lia.
Qed.

Lemma accumulate_step (a : pyval) (g : G) :
  (v ← trial; pure (py_add a v)) g =
  (py_add a (K (fst (sample g))), snd (sample g)).
Proof. unfold mbind, run_bind. rewrite trial_sample. reflexivity. Qed.

(** Once [accum] is a float, each iteration adds the sampled value to it,
    on the right. *)
Lemma accumulate_floats (l : list Z) :
  forall (acc : float) (g : G),
  for_each l (fun _ accum => v ← trial; pure (py_add accum v)) (K acc) g =
  (Ok (K (fold_left add (values (length l) g) acc)), rest (length l) g).
Proof.
  induction l as [|i l IH]; intros acc g; [reflexivity|].
  rewrite for_each_cons, accumulate_step, py_add_floats by assumption.
  rewrite IH. simpl length. simpl draw_values.
  destruct (sample g) as [v g1]. cbn [fst snd].
  destruct (draw_values sample (length l) g1). reflexivity.
Qed.

(** The loop over a non-empty range: [accum] ends as the float sum
    [0 + v1 + ... + vn] of the sampled values. *)
Lemma accumulate_run (N : Z) (g : G) :
  0 < N ->
  for_each (range N) (fun _ accum => v ← trial; pure (py_add accum v)) (PyInt 0) g =
  (Ok (K (float_sum (values (Z.to_nat N) g))), rest (Z.to_nat N) g).
Proof.
  intros HN. rewrite <- (range_length N).
  destruct (range N) as [|i l] eqn:El.
  - pose proof (range_length N) as H. rewrite El in H. simpl in H. lia.
  - rewrite for_each_cons, accumulate_step, py_add_int_0 by assumption.
    rewrite accumulate_floats. simpl length. simpl draw_values.
    destruct (sample g) as [v g1]. cbn [fst snd].
    destruct (draw_values sample (length l) g1). reflexivity.
Qed.

(** The whole cell, for [N > 0] and a measure that converts to [fm]. *)
Lemma integration_cell_run (N measure : Z) (d fm : float) (g : G) :
  0 < N -> py_float N = Ok d -> py_float measure = Ok fm ->
  integration_cell G N trial measure g =
  (Ok (K (div (mul fm (float_sum (values (Z.to_nat N) g))) d)),
   rest (Z.to_nat N) g).
Proof.
  intros HN Hd Hm. unfold integration_cell.
  unfold mbind at 1. unfold run_bind at 1. rewrite accumulate_run by assumption.
  unfold pure. f_equal.
  destruct (py_float_positive N d HN Hd) as (_ & m & e & ->).
  rewrite Hd.
  destruct K_float as [->| ->]; unfold py_mul, arith; rewrite Hm; reflexivity.
Qed.

(** With no iteration [accum] is still the [int] 0 when the cell divides. *)
Lemma integration_cell_no_trial (N measure : Z) (g : G) :
  N <= 0 ->
  integration_cell G N trial measure g =
  (d ← py_float N; truediv_float (PyInt (measure * 0)) d, g).
Proof.
  intros HN. unfold integration_cell, range.
  replace (Z.to_nat N) with 0%nat by lia. reflexivity.
Qed.

End Integration.

Section Trials.

Variable G : Type.
Variable uniform : float -> float -> G -> float * G.
Variable float_pow : float -> Z -> float.
Variable np_sin np_cos : float -> float.

Lemma first_trial_sample (g : G) :
  first_trial G uniform float_pow g =
  (Ok (PyFloat (fst (sample1 uniform float_pow g))), snd (sample1 uniform float_pow g)).
Proof.
  unfold first_trial, sample1. rewrite run_bind_draw.
  destruct (uniform (of_Z 1) (of_Z 5) g). reflexivity.
Qed.

Lemma second_trial_sample (g : G) :
  second_trial G uniform float_pow np_sin g =
  (Ok (NpFloat64 (fst (sample2 uniform float_pow np_sin g))),
   snd (sample2 uniform float_pow np_sin g)).
Proof.
  unfold second_trial, sample2. rewrite run_bind_draw.
  destruct (uniform (of_Z 2) (of_Z 3) g). reflexivity.
Qed.

Lemma third_trial_sample (g : G) :
  third_trial G uniform float_pow np_cos g =
  (Ok (NpFloat64 (fst (sample3 uniform float_pow np_cos g))),
   snd (sample3 uniform float_pow np_cos g)).
Proof.
  unfold third_trial, sample3. rewrite run_bind_draw.
  destruct (uniform (of_Z 4) (of_Z 6) g) as [x g1]. cbn [fst snd].
  rewrite run_bind_draw.
  destruct (uniform (of_Z 0) (of_Z 1) g1). reflexivity.
Qed.

End Trials.

(** ** Comparison *)

Lemma SFcompare_antisym (x y : float) :
  SFcompare y x = option_map CompOpp (SFcompare x y).
Proof.
  destruct x as [[]|[]| |[] m e], y as [[]|[]| |[] m' e']; try reflexivity;
    simpl; rewrite (Z.compare_antisym e e'); destruct (e ?= e'); simpl;
    try reflexivity;
    pose proof (Pos.compare_cont_antisym m m' Eq) as H; simpl CompOpp in H;
    first [ apply f_equal; apply f_equal; symmetry; exact H
          | apply f_equal; symmetry; exact H ].
Qed.

(** [x > y] is IEEE's strict order: it holds exactly when the comparison of
    [x] with [y] says greater; equal operands and nan give false. *)
Lemma gt_iff (x y : float) : Np.gt x y = true <-> SFcompare x y = Some Gt.
Proof.
  unfold Np.gt, SFltb. rewrite (SFcompare_antisym x y).
  destruct (SFcompare x y) as [[]|]; simpl; split; congruence.
Qed.

Lemma gt_eq_false (x y : float) : SFeqb x y = true -> Np.gt x y = false.
Proof.
  unfold SFeqb. intros H. destruct (Np.gt x y) eqn:E; [|reflexivity].
  apply gt_iff in E. rewrite E in H. discriminate.
Qed.

(** ** Products *)

(** Rounding an exact integer of more than 53 digits, in the normal range. *)
Lemma binary_round_aux_long (s : bool) (p : positive) (e : Z) :
  53 < Zpos (digits2_pos p) -> -1074 <= e + Zpos (digits2_pos p) - 53 ->
  binary_round_aux prec emax s (Zpos p) e loc_Exact =
  pack s (round_half_even (Zpos p) (2 ^ (Zpos (digits2_pos p) - 53)))
    (e + Zpos (digits2_pos p) - 53).
Proof.
  intros Hd He. pose proof (digits2_bounds p) as [Blo Bhi].
  set (d := Zpos (digits2_pos p)) in *.
  destruct (d - 53) as [|k|k] eqn:Ek; try lia.
  assert (HT : 0 < 2 ^ Zpos k) by (apply Z.pow_pos_nonneg; lia).
  assert (E1 : 2 ^ (d - 1) = 2 ^ 52 * 2 ^ Zpos k).
  { rewrite <- Z.pow_add_r by lia. f_equal. lia. }
  assert (E2 : 2 ^ d = 2 * 2 ^ 52 * 2 ^ Zpos k).
  { change (2 * 2 ^ 52) with (2 ^ 53). rewrite <- Z.pow_add_r by lia. f_equal. lia. }
  pose proof (round_half_even_range (Zpos p) (2 ^ Zpos k) (2 ^ 52) HT
                ltac:(lia) ltac:(lia)) as Hrange.
  assert (Hinv : shr_inv (Zpos p) (2 ^ Zpos k)
                   (SpecFloat.iter_pos shr_1 k (Build_shr_record (Zpos p) false false))).
  { replace (2 ^ Zpos k) with (1 * 2 ^ Zpos k) by lia.
    apply shr_inv_iter; [lia|]. apply shr_inv_init. lia. }
  destruct (round_of_inv _ _ _ HT Hinv) as [_ Hround].
  assert (Hf : fexp prec emax (d + e) - e = Zpos k) by (rewrite fexp_eq; lia).
  rewrite (binary_round_aux_pack s (Zpos p) e loc_Exact
             (SpecFloat.iter_pos shr_1 k (Build_shr_record (Zpos p) false false))
             (e + Zpos k)).
  - rewrite Hround. f_equal. lia.
  - unfold shr_fexp. change (Zdigits2 (Zpos p)) with d. rewrite Hf. reflexivity.
  - rewrite Hround. change (2 ^ 53) with (2 * 2 ^ 52). lia.
  - lia.
  - left. rewrite Hround. lia.
Qed.

Lemma digits2_mul (m1 m2 : positive) :
  Zpos (digits2_pos m1) = 53 -> Zpos (digits2_pos m2) = 53 ->
  105 <= Zpos (digits2_pos (m1 * m2)) <= 106.
Proof.
  intros D1 D2. pose proof (digits2_bounds m1) as B1.
  pose proof (digits2_bounds m2) as B2. rewrite D1 in B1. rewrite D2 in B2.
  change (2 ^ (53 - 1)) with (2 ^ 52) in *.
  split.
  - apply digits2_ge. rewrite Pos2Z.inj_mul.
    change (2 ^ (105 - 1)) with (2 ^ 52 * 2 ^ 52).
    apply Z.mul_le_mono_nonneg; lia.
  - apply digits2_le. rewrite Pos2Z.inj_mul.
    change (2 ^ 106) with (2 ^ 53 * 2 ^ 53).
    apply Z.mul_lt_mono_nonneg; lia.
Qed.

(** The product of two floats with 53-digit mantissas, when it is not
    subnormal: the exact product of the mantissas, rounded. *)
Lemma mul_normal (s1 s2 : bool) (m1 m2 : positive) (e1 e2 : Z) :
  Zpos (digits2_pos m1) = 53 -> Zpos (digits2_pos m2) = 53 ->
  -1126 <= e1 + e2 ->
  let d := Zpos (digits2_pos (m1 * m2)) in
  mul (S754_finite s1 m1 e1) (S754_finite s2 m2 e2) =
  pack (xorb s1 s2) (round_half_even (Zpos (m1 * m2)) (2 ^ (d - 53)))
    (e1 + e2 + d - 53).
Proof.
  intros D1 D2 He d. pose proof (digits2_mul m1 m2 D1 D2) as Hd.
  unfold mul, SFmul. apply binary_round_aux_long; fold d; lia.
Qed.


Lemma sum_bool_gt_array (ts : list (float * float)) :
  Np.sum_bool (Np.gt_array (map fst ts) (map snd ts)) = count_failures ts.
Proof.
  induction ts as [|[s y] ts IH]; [reflexivity|].
  rewrite count_failures_cons, <- IH. unfold Np.sum_bool, Np.gt_array, fails.
  simpl. rewrite filter_cons. destruct (Np.gt s y); simpl.
  - destruct (decide (true = true)); [|congruence]. simpl length. lia.
  - destruct (decide (false = true)); [congruence|]. lia.
Qed.

Lemma float_sum_nan (l1 l2 : list float) : float_sum (l1 ++ S754_nan :: l2) = S754_nan.
Proof.
  unfold float_sum. rewrite fold_left_app. simpl.
  assert (E : add (fold_left add l1 zero) S754_nan = S754_nan)
    by (destruct (fold_left add l1 zero) as [[]|[]| |]; reflexivity).
  rewrite E. clear E. induction l2 as [|v l2 IH]; [reflexivity|exact IH].
Qed.

(** ** Scaling by a power of two *)

Lemma round_half_even_exact (m T : Z) :
  0 < T -> round_half_even (m * T) T = m.
Proof.
  intros HT. unfold round_half_even.
  rewrite Z.div_mul, Z.mod_mul by lia.
  assert ((T <? 2 * 0) = false) as -> by lia.
  assert ((T =? 2 * 0) = false) as -> by lia. reflexivity.
Qed.

Lemma pack_pos (s : bool) (m : positive) (e : Z) :
  Zpos (digits2_pos m) = 53 ->
  pack s (Zpos m) e = if e <=? 971 then S754_finite s m e else S754_infinity s.
Proof.
  intros D. pose proof (digits2_bounds m) as [_ B]. rewrite D in B.
  unfold pack. assert ((Zpos m <? 2 ^ 53) = true) as -> by lia. reflexivity.
Qed.

(** The product of [2 ^ k] (as the float of mantissa [2 ^ 52]) and a normal
    float only moves the exponent. *)
Lemma mul_pow2 (k : Z) (s : bool) (m : positive) (e : Z) :
  0 <= k -> Zpos (digits2_pos m) = 53 -> -1074 <= e ->
  mul (S754_finite false 4503599627370496 (k - 52)) (S754_finite s m e) =
  pack s (Zpos m) (e + k).
Proof.
  intros Hk D He. pose proof (digits2_bounds m) as B. rewrite D in B.
  change (2 ^ (53 - 1)) with (2 ^ 52) in B.
  assert (Ep : Zpos (4503599627370496 * m) = Zpos m * 2 ^ 52).
  { rewrite Pos2Z.inj_mul. change (Zpos 4503599627370496) with (2 ^ 52). lia. }
  assert (Dp : Zpos (digits2_pos (4503599627370496 * m)) = 105).
  { apply digits2_unique. rewrite Ep.
    change (2 ^ (105 - 1)) with (2 ^ 52 * 2 ^ 52).
    change (2 ^ 105) with (2 ^ 53 * 2 ^ 52). nia. }
  rewrite mul_normal by (try assumption; try reflexivity; lia).
  rewrite Dp, Ep. change (105 - 53) with 52.
  rewrite round_half_even_exact by (apply Z.pow_pos_nonneg; lia).
  f_equal. lia.
Qed.

Lemma mul_pow2_pack (k : Z) (s : bool) (m2 X : Z) :
  0 <= k -> 2 ^ 52 <= m2 <= 2 ^ 53 -> -1074 <= X ->
  mul (S754_finite false 4503599627370496 (k - 52)) (pack s m2 X) =
  pack s m2 (X + k).
Proof.
  intros Hk Hm HX.
  assert (D52 : Zpos (digits2_pos 4503599627370496) = 53) by reflexivity.
  unfold pack at 1. destruct (Z.ltb_spec m2 (2 ^ 53)) as [Hlt|Hge].
  - destruct (Z.leb_spec X 971) as [HX1|HX1].
    + assert (Dm : Zpos (digits2_pos (Z.to_pos m2)) = 53).
      { apply digits2_unique. rewrite Z2Pos.id by lia.
        change (2 ^ (53 - 1)) with (2 ^ 52). lia. }
      rewrite mul_pow2 by assumption. rewrite Z2Pos.id by lia. reflexivity.
    + unfold pack. assert ((m2 <? 2 ^ 53) = true) as -> by lia.
      assert ((X + k <=? 971) = false) as -> by lia. destruct s; reflexivity.
  - destruct (Z.leb_spec (X + 1) 971) as [HX1|HX1].
    + rewrite mul_pow2 by (assumption || lia). rewrite pack_pos by assumption.
      unfold pack. assert ((m2 <? 2 ^ 53) = false) as -> by lia.
      replace (X + 1 + k) with (X + k + 1) by lia. reflexivity.
    + unfold pack. assert ((m2 <? 2 ^ 53) = false) as -> by lia.
      assert ((X + k + 1 <=? 971) = false) as -> by lia. destruct s; reflexivity.
Qed.

(** The quotient of two floats with 53-digit mantissas, when it is not
    subnormal: a rounded mantissa and a shift that depend on the mantissas
    only, at an exponent that is the difference of the exponents. *)
Lemma div_normal (s : bool) (m md : positive) :
  Zpos (digits2_pos m) = 53 -> Zpos (digits2_pos md) = 53 ->
  exists m2 sh, 2 ^ 52 <= m2 <= 2 ^ 53 /\ 0 <= sh <= 1 /\
    forall e ed, -1074 <= e - ed - 53 ->
    div (S754_finite s m e) (S754_finite false md ed) =
    pack s m2 (e - ed - 53 + sh).
Proof.
  intros Dx Dy.
  pose proof (digits2_bounds m) as Bx. pose proof (digits2_bounds md) as By.
  rewrite Dx in Bx. rewrite Dy in By.
  change (2 ^ (53 - 1)) with (2 ^ 52) in Bx, By.
  change (2 ^ 53) with (2 * 2 ^ 52) in Bx, By.
  pose proof (Z_div_mod (Zpos m * 2 ^ 53) (Zpos md) ltac:(lia)) as Hdm.
  destruct (Z.div_eucl (Zpos m * 2 ^ 53) (Zpos md)) as [q r] eqn:Edm.
  destruct Hdm as [Eq Hr]. change (2 ^ 53) with (2 * 2 ^ 52) in Eq.
  destruct (quotient_bounds (2 ^ 52) (Zpos m) (Zpos md) (2 ^ 52) q r)
    as (Hq & _ & _); try assumption; try lia.
  destruct q as [|pq|pq]; try lia.
  assert (Dq1 : Zpos (digits2_pos pq) <= 54).
  { apply digits2_le. change (2 ^ 54) with (4 * 2 ^ 52). lia. }
  assert (Dq2 : 53 <= Zpos (digits2_pos pq)).
  { apply digits2_ge. change (2 ^ (53 - 1)) with (2 ^ 52). lia. }
  set (l := new_location (Zpos md) r).
  assert (Hcore : forall e ed, -1074 <= e - ed - 53 ->
            div (S754_finite s m e) (S754_finite false md ed) =
            binary_round_aux prec emax s (Zpos pq) (e - ed - 53) l).
  { intros e ed He. unfold div, SFdiv, SFdiv_core_binary.
    change (Zdigits2 (Zpos m)) with (Zpos (digits2_pos m)).
    change (Zdigits2 (Zpos md)) with (Zpos (digits2_pos md)).
    rewrite Dx, Dy, fexp_eq.
    replace (Z.min (Z.max (53 + e - (53 + ed) - 53) (-1074)) (e - ed))
      with (e - ed - 53) by lia.
    replace (e - ed - (e - ed - 53)) with 53 by lia.
    rewrite Z.shiftl_mul_pow2 by lia. rewrite Edm.
    destruct s; reflexivity. }
  pose proof (digits2_bounds pq) as [Blo Bhi].
  destruct (Z.eq_dec (Zpos (digits2_pos pq)) 53) as [D53|D53].
  - pose proof (round_nearest_even_cases (Zpos pq) l) as Hrn.
    rewrite D53 in Blo, Bhi. change (2 ^ (53 - 1)) with (2 ^ 52) in Blo.
    exists (round_nearest_even (Zpos pq) l), 0.
    split; [lia|split; [lia|]]. intros e ed He. rewrite Hcore by assumption.
    rewrite (binary_round_aux_pack s (Zpos pq) (e - ed - 53) l
               (shr_record_of_loc (Zpos pq) l) (e - ed - 53)).
    + rewrite shr_m_record_of_loc, loc_of_record_of_loc. f_equal. lia.
    + unfold shr_fexp. change (Zdigits2 (Zpos pq)) with (Zpos (digits2_pos pq)).
      rewrite D53, fexp_eq.
      replace (Z.max (53 + (e - ed - 53) - 53) (-1074) - (e - ed - 53)) with 0 by lia.
      reflexivity.
    + rewrite shr_m_record_of_loc, loc_of_record_of_loc. lia.
    + lia.
    + left. rewrite shr_m_record_of_loc, loc_of_record_of_loc. lia.
  - assert (D54 : Zpos (digits2_pos pq) = 54) by lia.
    rewrite D54 in Blo, Bhi. change (2 ^ (54 - 1)) with (2 * 2 ^ 52) in Blo.
    change (2 ^ 54) with (2 * 2 ^ 53) in Bhi.
    set (mrs := shr_1 (shr_record_of_loc (Zpos pq) l)).
    pose proof (round_nearest_even_cases (shr_m mrs) (loc_of_shr_record mrs)) as Hrn.
    assert (Hm : shr_m mrs = Zpos pq / 2) by apply shr_m_shr_1.
    pose proof (Z.div_mod (Zpos pq) 2 ltac:(lia)) as Ediv.
    pose proof (Z.mod_pos_bound (Zpos pq) 2 ltac:(lia)) as Bmod.
    exists (round_nearest_even (shr_m mrs) (loc_of_shr_record mrs)), 1.
    split; [lia|split; [lia|]]. intros e ed He. rewrite Hcore by assumption.
    rewrite (binary_round_aux_pack s (Zpos pq) (e - ed - 53) l mrs (e - ed - 53 + 1)).
    + reflexivity.
    + unfold shr_fexp. change (Zdigits2 (Zpos pq)) with (Zpos (digits2_pos pq)).
      rewrite D54, fexp_eq.
      replace (Z.max (54 + (e - ed - 53) - 53) (-1074) - (e - ed - 53)) with 1 by lia.
      reflexivity.
    + lia.
    + lia.
    + left. lia.
Qed.

(** Multiplying by [2 ^ k] before or after a division gives the same float,
    as long as the product does not overflow and the quotient is not
    subnormal. *)
Lemma scale_div_commute (k : Z) (s : bool) (m md : positive) (e ed : Z) :
  0 <= k -> Zpos (digits2_pos m) = 53 -> Zpos (digits2_pos md) = 53 ->
  e + k <= 971 -> -1021 <= e - ed -> -1074 <= e ->
  div (mul (S754_finite false 4503599627370496 (k - 52)) (S754_finite s m e))
      (S754_finite false md ed) =
  mul (S754_finite false 4503599627370496 (k - 52))
      (div (S754_finite s m e) (S754_finite false md ed)).
Proof.
  intros Hk Dm Dd Hov Hsub He.
  destruct (div_normal s m md Dm Dd) as (m2 & sh & Hm2 & Hsh & Hdiv).
  rewrite mul_pow2, pack_pos by assumption.
  assert ((e + k <=? 971) = true) as -> by lia.
  rewrite !Hdiv by lia. rewrite mul_pow2_pack by lia.
  f_equal. lia.
Qed.

Lemma scale_div_commute_bool (k : Z) (sum d : float) :
  0 <= k -> scales_exactly k sum d = true ->
  div (mul (S754_finite false 4503599627370496 (k - 52)) sum) d =
  mul (S754_finite false 4503599627370496 (k - 52)) (div sum d).
Proof.
  intros Hk H. unfold scales_exactly in H.
  destruct d as [| | |[] md ed]; try discriminate.
  apply andb_true_iff in H as [Dd H]. apply Z.eqb_eq in Dd.
  destruct sum as [[]|[]| |s m e]; try reflexivity.
  apply andb_true_iff in H as [H H4]. apply andb_true_iff in H as [H H3].
  apply andb_true_iff in H as [H1 H2].
  apply Z.eqb_eq in H1. apply Z.leb_le in H2, H3, H4.
  apply scale_div_commute; assumption.
Qed.

(** ** More on conversions and quotients *)

Lemma binary_round_aux_opp (m e : Z) (l : location) :
  binary_round_aux prec emax true m e l =
  SFopp (binary_round_aux prec emax false m e l).
Proof.
  unfold binary_round_aux.
  destruct (shr_fexp prec emax m e l) as [mrs e1].
  destruct (shr_fexp prec emax _ e1 loc_Exact) as [mrs' e2].
  destruct (shr_m mrs'); try reflexivity.
  destruct (e2 <=? emax - prec); reflexivity.
Qed.

Lemma of_Z_opp (p : positive) : of_Z (Zneg p) = SFopp (of_Z (Zpos p)).
Proof.
  unfold of_Z, binary_normalize, binary_round.
  destruct (shl_align p 0 (fexp prec emax (Z.pos (digits2_pos p) + 0))) as [mz ez].
  apply binary_round_aux_opp.
Qed.

Lemma py_float_negative (n : Z) (d : float) :
  n < 0 -> py_float n = Ok d -> exists m e, d = S754_finite true m e.
Proof.
  intros Hn. destruct n as [|p|p]; try lia. unfold py_float.
  rewrite of_Z_opp.
  destruct (of_Z_positive (Zpos p) ltac:(lia)) as [(m & e & ->)| ->]; simpl.
  - intros [= <-]. eauto.
  - discriminate.
Qed.

(** A float with a 53-digit mantissa divided by itself is 1.0. *)
Lemma div_self (m : positive) (e : Z) :
  Zpos (digits2_pos m) = 53 ->
  div (S754_finite false m e) (S754_finite false m e) = one.
Proof.
  intros D. pose proof (digits2_bounds m) as B. rewrite D in B.
  change (2 ^ (53 - 1)) with (2 ^ 52) in B.
  change (2 ^ 53) with (2 * 2 ^ 52) in B.
  unfold div, SFdiv, SFdiv_core_binary.
  change (Zdigits2 (Zpos m)) with (Zpos (digits2_pos m)).
  rewrite D, fexp_eq.
  replace (Z.min (Z.max (53 + e - (53 + e) - 53) (-1074)) (e - e)) with (-53) by lia.
  replace (e - e - -53) with 53 by lia.
  rewrite Z.shiftl_mul_pow2 by lia.
  pose proof (Z_div_mod (Zpos m * 2 ^ 53) (Zpos m) ltac:(lia)) as Hdm.
  destruct (Z.div_eucl (Zpos m * 2 ^ 53) (Zpos m)) as [q r].
  destruct Hdm as [Eq Hr]. change (2 ^ 53) with (2 * 2 ^ 52) in Eq.
  destruct (quotient_bounds (2 ^ 52) (Zpos m) (Zpos m) (2 ^ 52) q r)
    as (_ & _ & Heq); try assumption; try lia.
  destruct (Heq eq_refl) as [-> ->].
  rewrite new_location_zero. reflexivity.
Qed.

Lemma of_Z_self_quotient (n : Z) (d : float) :
  0 < n -> py_float n = Ok d -> div (of_Z n) d = one.
Proof.
  intros Hn Hd. destruct (py_float_positive n d Hn Hd) as (-> & m & e & E).
  destruct (of_Z_mono n n m e ltac:(lia) E) as (mx & ex & Ex & Dx & _).
  rewrite Ex. apply div_self. assumption.
Qed.

(** An integer below [2 ^ 53] converts exactly. *)
Lemma of_Z_exact (n : Z) :
  0 < n < 2 ^ 53 ->
  exists m e, of_Z n = S754_finite false m e /\ e <= 0 /\ Zpos m = n * 2 ^ (- e).
Proof.
  intros Hn. destruct n as [|p|p]; try lia.
  pose proof (digits2_le p 53 ltac:(lia)) as Hd.
  pose proof (digits2_bounds p) as [Blo Bhi].
  pose proof (int_mantissa_range p) as Hr.
  rewrite of_Z_pack. unfold int_mantissa in *.
  change (Zdigits2 (Zpos p)) with (Zpos (digits2_pos p)) in *.
  set (dp := Zpos (digits2_pos p)) in *.
  assert ((dp <=? 53) = true) as E by lia. rewrite E in *.
  assert (Hlt : Zpos p * 2 ^ (53 - dp) < 2 ^ 53).
  { assert (E2 : 2 ^ 53 = 2 ^ dp * 2 ^ (53 - dp)).
    { rewrite <- Z.pow_add_r by lia. f_equal. lia. }
    assert (0 < 2 ^ (53 - dp)) by (apply Z.pow_pos_nonneg; lia).
    rewrite E2. nia. }
  unfold pack.
  assert ((Zpos p * 2 ^ (53 - dp) <? 2 ^ 53) = true) as -> by lia.
  assert ((dp - 53 <=? 971) = true) as -> by lia.
  eexists _, _. split; [reflexivity|]. split; [lia|].
  rewrite Z2Pos.id by lia. f_equal. f_equal. lia.
Qed.

(** ** Counting *)

Lemma count_failures_all (l : list (float * float)) :
  Forall (fun t => fails t = true) l -> count_failures l = Z.of_nat (length l).
Proof.
  induction 1 as [|t l Ht _ IH]; [reflexivity|].
  rewrite count_failures_cons, Ht, IH. simpl length. lia.
Qed.

Lemma count_failures_none (l : list (float * float)) :
  Forall (fun t => fails t = false) l -> count_failures l = 0.
Proof.
  induction 1 as [|t l Ht _ IH]; [reflexivity|].
  rewrite count_failures_cons, Ht, IH. reflexivity.
Qed.

Lemma sum_bool_cons (b : bool) (mask : list bool) :
  Np.sum_bool (b :: mask) = (if b then 1 else 0) + Np.sum_bool mask.
Proof.
  unfold Np.sum_bool. rewrite filter_cons.
  destruct b.
  - destruct (decide (true = true)); [|congruence]. simpl length. lia.
  - destruct (decide (false = true)); [congruence|]. lia.
Qed.

Lemma sum_bool_bounds (mask : list bool) :
  0 <= Np.sum_bool mask <= Z.of_nat (length mask).
Proof.
  induction mask as [|b mask IH]; [unfold Np.sum_bool; simpl; lia|].
  rewrite sum_bool_cons. simpl length. destruct b; lia.
Qed.

Lemma aside_cell_value :
  SFsqrt prec emax (add one (Np.mul (Np.of_int 3) one)) =
  S754_finite false 4503599627370496 (-51).
Proof. vm_compute. reflexivity. Qed.

Lemma aside_array (n : nat) :
  Np.sqrt (Np.add_array (repeat one n) (Np.scale 3 (repeat one n))) =
  repeat (S754_finite false 4503599627370496 (-51)) n.
Proof.
  induction n as [|n IH]; [reflexivity|].
  unfold Np.sqrt, Np.add_array, Np.scale in *.
  cbn [repeat map zip_with]. rewrite IH, aside_cell_value. reflexivity.
Qed.

Section Vectorized.

Variable G : Type.
Variable norm_rvs : float -> float -> G -> float * G.

Lemma rvs_array_length (loc scale : float) (n : nat) (g : G) :
  length (fst (rvs_array G norm_rvs loc scale n g)) = n.
Proof.
  revert g. induction n as [|n IH]; intros g; simpl; [reflexivity|].
  destruct (norm_rvs loc scale g) as [x g1]. specialize (IH g1).
  destruct (rvs_array G norm_rvs loc scale n g1). simpl in *. lia.
Qed.

Lemma norm_rvs_n_run (loc scale : float) (N : Z) (g : G) :
  0 <= N ->
  norm_rvs_n G norm_rvs loc scale N g =
  (Ok (fst (rvs_array G norm_rvs loc scale (Z.to_nat N) g)),
   snd (rvs_array G norm_rvs loc scale (Z.to_nat N) g)).
Proof.
  intros HN. unfold norm_rvs_n. assert ((N <? 0) = false) as -> by lia.
  unfold draw. destruct (rvs_array G norm_rvs loc scale (Z.to_nat N) g).
  reflexivity.
Qed.

End Vectorized.

(** * The specification's claims *)

Section Claims.

Variable G : Type.
Variable norm_rvs : float -> float -> G -> float * G.
Variable uniform : float -> float -> G -> float * G.
Variable float_pow : float -> Z -> float.
Variable np_sin np_cos : float -> float.
Variable heap : nat -> nat -> float.

Local Abbreviation trials n g := (fst (draw_trials norm_rvs n g)).
Local Abbreviation after_trials n g := (snd (draw_trials norm_rvs n g)).
Local Abbreviation run := (run_failure_probability G norm_rvs heap).

(** C1: for N > 0 trials (with float(N) in range) the experiment returns the
    Python float failures / float(N), a binary64 division, where failures is
    the number of trials whose stress compares strictly greater than the
    strength; a trial whose stress equals its strength leaves the count as it
    was. *)
Theorem estimate_is_count_over_N (N : Z) (d : float) (g : G) :
  0 < N -> py_float N = Ok d ->
  run N g =
    (Ok (PyFloat (div (of_Z (count_failures (trials (Z.to_nat N) g))) d)),
     after_trials (Z.to_nat N) g)
  /\ length (trials (Z.to_nat N) g) = Z.to_nat N
  /\ (forall t l, count_failures (t :: l) =
        (if fails t then 1 else 0) + count_failures l)
  /\ (forall t, fails t = true <-> SFcompare (fst t) (snd t) = Some Gt)
  /\ (forall t l, SFeqb (fst t) (snd t) = true ->
        count_failures (t :: l) = count_failures l).
Proof.
  intros HN Hd. split; [|split; [|split; [|split]]].
  - apply run_failure_probability_run; assumption.
  - apply draw_trials_length.
  - apply count_failures_cons.
  - intros t. apply gt_iff.
  - intros t l Ht. rewrite count_failures_cons. unfold fails.
    rewrite gt_eq_false by assumption. lia.
Qed.

Local Abbreviation values1 n g := (fst (draw_values (sample1 uniform float_pow) n g)).
Local Abbreviation values2 n g := (fst (draw_values (sample2 uniform float_pow np_sin) n g)).
Local Abbreviation values3 n g := (fst (draw_values (sample3 uniform float_pow np_cos) n g)).

(** C2: for N > 0 (with float(N) in range) each integration cell returns
    measure * accum / float(N), where accum is the float sum
    0 + v1 + ... + vN of the integrand at the N sampled points, in loop order,
    and measure is 4 = 5 - 1 on [1,5], 1 = 3 - 2 on [2,3] and 2 = 2 * 1 on
    [4,6] x [0,1]. The cell multiplies before it divides; the measures being
    powers of two, that is measure * (accum / float(N)) bit for bit whenever
    measure * accum does not overflow and accum / float(N) is not
    subnormal. *)
Theorem integral_estimate_is_measure_times_mean (N : Z) (d : float) (g : G) :
  0 < N -> py_float N = Ok d ->
  let S1 := float_sum (values1 (Z.to_nat N) g) in
  let S2 := float_sum (values2 (Z.to_nat N) g) in
  let S3 := float_sum (values3 (Z.to_nat N) g) in
  first_integral G uniform float_pow N g =
    (Ok (PyFloat (div (mul (of_Z 4) S1) d)),
     snd (draw_values (sample1 uniform float_pow) (Z.to_nat N) g))
  /\ second_integral G uniform float_pow np_sin N g =
    (Ok (NpFloat64 (div (mul (of_Z 1) S2) d)),
     snd (draw_values (sample2 uniform float_pow np_sin) (Z.to_nat N) g))
  /\ third_integral G uniform float_pow np_cos N g =
    (Ok (NpFloat64 (div (mul (of_Z 2) S3) d)),
     snd (draw_values (sample3 uniform float_pow np_cos) (Z.to_nat N) g))
  /\ (scales_exactly 2 S1 d = true ->
      div (mul (of_Z 4) S1) d = mul (of_Z 4) (div S1 d))
  /\ (scales_exactly 0 S2 d = true ->
      div (mul (of_Z 1) S2) d = mul (of_Z 1) (div S2 d))
  /\ (scales_exactly 1 S3 d = true ->
      div (mul (of_Z 2) S3) d = mul (of_Z 2) (div S3 d))
  /\ length (values1 (Z.to_nat N) g) = Z.to_nat N
  /\ length (values2 (Z.to_nat N) g) = Z.to_nat N
  /\ length (values3 (Z.to_nat N) g) = Z.to_nat N.
Proof.
  intros HN Hd S1 S2 S3. repeat split.
  - apply (integration_cell_run G PyFloat); auto using first_trial_sample.
  - apply (integration_cell_run G NpFloat64); auto using second_trial_sample.
  - apply (integration_cell_run G NpFloat64); auto using third_trial_sample.
  - apply (scale_div_commute_bool 2). lia.
  - apply (scale_div_commute_bool 0). lia.
  - apply (scale_div_commute_bool 1). lia.
  - apply draw_values_length.
  - apply draw_values_length.
  - apply draw_values_length.
Qed.

(** C3: for N > 0 (with float(N) in range) the experiment returns a float p
    with 0 <= p <= 1; and after each of the loop's iterations, k of them say,
    the failure count is between 0 and k. *)
Theorem probability_in_unit_interval (N : Z) (d : float) (a0 a1 : list float)
    (g : G) :
  0 < N -> py_float N = Ok d ->
  Np.empty (heap 0) N = Ok a0 -> Np.empty (heap 1) N = Ok a1 ->
  (exists p g', run N g = (Ok (PyFloat p), g') /\ in_unit_interval p = true)
  /\ (forall k : nat, (k <= Z.to_nat N)%nat ->
      exists st g',
        for_each (take k (range N)) (simulation_step G norm_rvs)
          (HoopState 0 a0 a1) g = (Ok st, g')
        /\ 0 <= failures st <= Z.of_nat k).
Proof.
  intros HN Hd E0 E1. split.
  - eexists _, _.
    split; [apply (run_failure_probability_run G norm_rvs heap N d); assumption|].
    pose proof (count_failures_bounds (trials (Z.to_nat N) g)) as Hb.
    rewrite draw_trials_length in Hb.
    destruct (count_over_N (count_failures (trials (Z.to_nat N) g)) N d)
      as (_ & _ & Hp); [lia|assumption|assumption|exact Hp].
  - intros k Hk. eexists _, _.
    split; [apply (simulation_iterations G norm_rvs heap N k); assumption|].
    simpl failures.
    pose proof (count_failures_bounds (trials k g)) as Hb.
    rewrite draw_trials_length in Hb. exact Hb.
Qed.

(** C4: the hoop-stress evaluator draws a radius, then a wall thickness, and
    returns 10.0 * radius / W, the product first: the pressure is the
    constant 10 and takes no draw. *)
Theorem hoop_stress_is_pressure_radius_over_thickness (g : G) :
  let radius := norm_rvs (of_Z 60) (mul (of_Z 60) lit_0_05) g in
  let W := norm_rvs (of_Z 4) (mul (of_Z 4) lit_0_05) (snd radius) in
  simulated_stress G norm_rvs g =
    (div (mul (S754_finite false 5629499534213120 (-49)) (fst radius)) (fst W),
     snd W)
  /\ of_Z 10 = S754_finite false 5629499534213120 (-49).
Proof.
  intros radius W. unfold simulated_stress. subst radius W.
  destruct (norm_rvs (of_Z 60) (mul (of_Z 60) lit_0_05) g) as [radius g1].
  cbn [fst snd].
  destruct (norm_rvs (of_Z 4) (mul (of_Z 4) lit_0_05) g1) as [W g2].
  split; reflexivity.
Qed.

(** C5 (amended): the experiment takes no seed and reads the process-wide
    generator where the previous run left it; run twice, for N > 0 (with
    float(N) in range), it evaluates the first N and then the next N trials
    of the generator's stream: the first result is the number of failing
    trials among the first N over float(N), the second the number among the
    next N over float(N), and the generator is left after 2N trials. *)
Theorem repeated_runs_use_consecutive_trials (N : Z) (d : float) (g : G) :
  0 < N -> py_float N = Ok d ->
  run_twice G norm_rvs heap N g =
  (Ok (PyFloat (div (of_Z (count_failures
                             (take (Z.to_nat N) (trials (Z.to_nat N + Z.to_nat N) g)))) d),
       PyFloat (div (of_Z (count_failures
                             (drop (Z.to_nat N) (trials (Z.to_nat N + Z.to_nat N) g)))) d)),
   after_trials (Z.to_nat N + Z.to_nat N) g).
Proof.
  intros HN Hd. unfold run_twice.
  unfold mbind at 1. unfold run_bind at 1.
  rewrite (run_failure_probability_run G norm_rvs heap N d) by assumption.
  unfold mbind at 1. unfold run_bind at 1.
  rewrite (run_failure_probability_run G norm_rvs heap N d) by assumption.
  rewrite draw_trials_app. cbn [fst snd].
  pose proof (draw_trials_length G norm_rvs (Z.to_nat N) g) as Hlen.
  rewrite take_app_length', drop_app_length' by (symmetry; exact Hlen).
  reflexivity.
Qed.

(** C6: for N > 0 (with float(N) in range), counting failures while the
    trials run and dividing by float(N), and comparing the arrays of all N
    outputs, summing the mask and dividing by float(N), give the same
    binary64 value. *)
Theorem loop_and_array_reductions_agree (N : Z) (d : float) (g : G) :
  0 < N -> py_float N = Ok d ->
  exists st g' p,
    simulation_cell G norm_rvs heap N g = (Ok st, g')
    /\ probability_cell st N = Ok (PyFloat p)
    /\ reduce_outputs (stresses st) (yield_strengths st) N = Ok (NpFloat64 p).
Proof.
  intros HN Hd. eexists _, _, _.
  split; [apply simulation_cell_run; lia|].
  pose proof (count_failures_bounds (trials (Z.to_nat N) g)) as Hb.
  rewrite draw_trials_length in Hb.
  destruct (count_over_N (count_failures (trials (Z.to_nat N) g)) N d)
    as (Hf & Hz & _); [lia|assumption|assumption|].
  split.
  - unfold probability_cell, truediv_float. cbn [failures].
    rewrite Hd, bind_ok, Hf, bind_ok, Hz. reflexivity.
  - unfold reduce_outputs. cbn [stresses yield_strengths].
    rewrite sum_bool_gt_array, Hd. reflexivity.
Qed.

(** C8 (amended): with N = 0 the simulation cell succeeds without running a
    trial or touching the generator, and the probability cell then raises
    ZeroDivisionError; with N = 1 the experiment returns 0.0 or 1.0. *)
Theorem zero_trials_raise_and_one_trial_runs (g : G) :
  simulation_cell G norm_rvs heap 0 g = (Ok (HoopState 0 [] []), g)
  /\ run 0 g = (Raise ZeroDivisionError, g)
  /\ exists p, run 1 g = (Ok (PyFloat p), after_trials 1 g)
               /\ (p = zero \/ p = one).
Proof.
  split; [reflexivity|split; [reflexivity|]].
  eexists. split.
  - apply (run_failure_probability_run G norm_rvs heap 1 one); [lia|reflexivity].
  - change (Z.to_nat 1) with 1%nat.
    pose proof (count_failures_bounds (trials 1 g)) as Hb.
    rewrite draw_trials_length in Hb.
    destruct (Z.eq_dec (count_failures (trials 1 g)) 0) as [->|Hne];
      [left; reflexivity|].
    replace (count_failures (trials 1 g)) with 1 by lia. right; reflexivity.
Qed.


(** C10: both cells divide by float(N) itself, whatever the trials produced:
    the failure count and the sum run over all N trials, a trial with a nan
    or infinite output included; a nan among the integrand values makes the
    estimate nan instead of being left out. *)
Theorem denominator_is_N (N : Z) (d : float) (g : G) :
  0 < N -> py_float N = Ok d ->
  d = of_Z N
  /\ fst (run N g) =
       Ok (PyFloat (div (of_Z (count_failures (trials (Z.to_nat N) g))) (of_Z N)))
  /\ length (trials (Z.to_nat N) g) = Z.to_nat N
  /\ fst (first_integral G uniform float_pow N g) =
       Ok (PyFloat (div (mul (of_Z 4) (float_sum (values1 (Z.to_nat N) g))) (of_Z N)))
  /\ length (values1 (Z.to_nat N) g) = Z.to_nat N
  /\ (In S754_nan (values1 (Z.to_nat N) g) ->
      fst (first_integral G uniform float_pow N g) = Ok (PyFloat S754_nan)).
Proof.
  intros HN Hd.
  destruct (py_float_positive N d HN Hd) as (Ed & _).
  assert (H1 : fst (first_integral G uniform float_pow N g) =
       Ok (PyFloat (div (mul (of_Z 4) (float_sum (values1 (Z.to_nat N) g))) (of_Z N)))).
  { unfold first_integral.
    rewrite (integration_cell_run G PyFloat (sample1 uniform float_pow) _
               (or_introl eq_refl) (first_trial_sample G uniform float_pow)
               N (5 - 1) d (of_Z 4)) by (assumption || reflexivity).
    rewrite Ed. reflexivity. }
  split; [assumption|split; [|split; [|split; [|split]]]].
  - rewrite (run_failure_probability_run G norm_rvs heap N d) by assumption.
    rewrite Ed. reflexivity.
  - apply draw_trials_length.
  - exact H1.
  - apply draw_values_length.
  - intros Hin. rewrite H1. apply in_split in Hin as (l1 & l2 & ->).
    rewrite float_sum_nan. reflexivity.
Qed.

End Claims.

(** ** The claims on concrete draws *)

Lemma estimate_is_count_over_N_witness :
  run_failure_probability Tape.G Tape.norm_rvs Tape.heap 2 Tape.one_failure_in_two =
  (Ok (PyFloat Tape.half), []).
Proof.
  destruct (estimate_is_count_over_N Tape.G Tape.norm_rvs Tape.heap 2 (of_Z 2)
              Tape.one_failure_in_two) as [H _]; [lia|reflexivity|].
  rewrite H. vm_compute. reflexivity.
Defined.

Lemma integral_estimate_is_measure_times_mean_witness :
  fst (first_integral Tape.G Tape.uniform Tape.float_pow 2 Tape.two_points) =
  Ok (PyFloat (mul (of_Z 4) (div (of_Z 10) (of_Z 2)))).
Proof.
  destruct (integral_estimate_is_measure_times_mean Tape.G Tape.uniform
              Tape.float_pow Tape.np_sin Tape.np_cos 2 (of_Z 2) Tape.two_points)
    as (H & _ & _ & Hs & _); [lia|reflexivity|].
  rewrite H. cbn [fst]. rewrite Hs by (vm_compute; reflexivity).
  vm_compute. reflexivity.
Defined.

Lemma probability_in_unit_interval_witness :
  exists p g',
    run_failure_probability Tape.G Tape.norm_rvs Tape.heap 2 Tape.one_failure_in_two =
    (Ok (PyFloat p), g') /\ in_unit_interval p = true.
Proof.
  destruct (probability_in_unit_interval Tape.G Tape.norm_rvs Tape.heap 2 (of_Z 2)
              [S754_nan; S754_nan] [S754_nan; S754_nan] Tape.one_failure_in_two)
    as [H _]; [lia|reflexivity|reflexivity|reflexivity|].
  exact H.
Defined.

Lemma repeated_runs_use_consecutive_trials_witness :
  run_twice Tape.G Tape.norm_rvs Tape.heap 1 Tape.one_failure_in_two =
  (Ok (PyFloat zero, PyFloat one), []).
Proof.
  rewrite (repeated_runs_use_consecutive_trials Tape.G Tape.norm_rvs Tape.heap 1
             (of_Z 1) Tape.one_failure_in_two) by (lia || reflexivity).
  vm_compute. reflexivity.
Defined.

(** Two runs in a row, nothing reseeded in between: 0.0, then 1.0. *)
Lemma unseeded_reruns_differ :
  fst (run_failure_probability Tape.G Tape.norm_rvs Tape.heap 1 Tape.one_failure_in_two) =
    Ok (PyFloat zero)
  /\ fst (run_failure_probability Tape.G Tape.norm_rvs Tape.heap 1
            (snd (run_failure_probability Tape.G Tape.norm_rvs Tape.heap 1
                    Tape.one_failure_in_two))) =
    Ok (PyFloat one)
  /\ PyFloat zero <> PyFloat one.
Proof. split; [|split]; [vm_compute; reflexivity..|discriminate]. Qed.

Lemma loop_and_array_reductions_agree_witness :
  exists st g' p,
    simulation_cell Tape.G Tape.norm_rvs Tape.heap 2 Tape.one_failure_in_two = (Ok st, g')
    /\ probability_cell st 2 = Ok (PyFloat p)
    /\ reduce_outputs (stresses st) (yield_strengths st) 2 = Ok (NpFloat64 p).
Proof.
  apply (loop_and_array_reductions_agree Tape.G Tape.norm_rvs Tape.heap 2 (of_Z 2));
    [lia|reflexivity].
Defined.

(** No trial: the error is [ZeroDivisionError], raised by the division. *)
Lemma zero_trials_error_is_ZeroDivisionError :
  run_failure_probability Tape.G Tape.norm_rvs Tape.heap 0 [] =
    (Raise ZeroDivisionError, [])
  /\ ZeroDivisionError <> InvalidParameter.
Proof. split; [reflexivity|discriminate]. Qed.



Lemma denominator_is_N_witness :
  fst (run_failure_probability Tape.G Tape.norm_rvs Tape.heap 2 Tape.one_failure_in_two) =
  Ok (PyFloat (div (of_Z 1) (of_Z 2))).
Proof.
  destruct (denominator_is_N Tape.G Tape.norm_rvs Tape.uniform Tape.float_pow
              Tape.heap 2 (of_Z 2) Tape.one_failure_in_two)
    as (_ & H & _); [lia|reflexivity|].
  rewrite H. vm_compute. reflexivity.
Defined.

(** * Further properties of the cells *)

(** X1: the aside on vectorization: [numpy.sqrt(ones + 3 * ones)] is an array of
    [N] cells, each exactly 2.0; a negative [N] is refused by [numpy.ones]. *)
Theorem vectorization_aside_is_all_twos (N : Z) :
  vectorization_aside N =
  if N <? 0 then Raise ValueError
  else Ok (repeat (S754_finite false 4503599627370496 (-51)) (Z.to_nat N)).
Proof.
  unfold vectorization_aside, Np.ones. destruct (N <? 0); [reflexivity|].
  rewrite bind_ok, aside_array. reflexivity.
Qed.

Section Cells.

Variable G : Type.
Variable norm_rvs : float -> float -> G -> float * G.
Variable uniform : float -> float -> G -> float * G.
Variable float_pow : float -> Z -> float.
Variable np_sin np_cos : float -> float.
Variable heap : nat -> nat -> float.

Local Abbreviation trials n g := (fst (draw_trials norm_rvs n g)).
Local Abbreviation run := (run_failure_probability G norm_rvs heap).
Local Abbreviation radii n g :=
  (rvs_array G norm_rvs (of_Z 60) (mul (of_Z 60) lit_0_05) n g).
Local Abbreviation thicknesses n g :=
  (rvs_array G norm_rvs (of_Z 4) (mul (of_Z 4) lit_0_05) n g).
Local Abbreviation strengths n g :=
  (rvs_array G norm_rvs (of_Z 200) (mul (of_Z 200) lit_0_1) n g).

(** X2: the vectorized cell, for N > 0 (with float(N) in range): it draws N
    radii, then N thicknesses, then N strengths, and returns the
    numpy.float64 count / float(N), in [0, 1], where count is the number of
    positions i with 10 * radius_i / W_i > strength_i. *)
Theorem vectorized_estimate_is_count_over_N (N : Z) (d : float) (g : G) :
  0 < N -> py_float N = Ok d ->
  let n := Z.to_nat N in
  let g1 := snd (radii n g) in
  let g2 := snd (thicknesses n g1) in
  let stress :=
    zip_with div (map (mul (of_Z 10)) (fst (radii n g))) (fst (thicknesses n g1)) in
  let count := Np.sum_bool (Np.gt_array stress (fst (strengths n g2))) in
  vectorized_cell G norm_rvs N g =
    (Ok (NpFloat64 (div (of_Z count) d)), snd (strengths n g2))
  /\ length stress = n
  /\ 0 <= count <= N
  /\ in_unit_interval (div (of_Z count) d) = true.
Proof.
  intros HN Hd n g1 g2 stress count.
  assert (Hlen : length stress = n).
  { unfold stress. rewrite length_zip_with, length_map, !rvs_array_length. lia. }
  assert (Hc : 0 <= count <= N).
  { pose proof (sum_bool_bounds (Np.gt_array stress (fst (strengths n g2)))) as Hb.
    unfold Np.gt_array in Hb.
    rewrite length_zip_with, Hlen, rvs_array_length in Hb.
    unfold count, Np.gt_array, n in *. lia. }
  split; [|split; [assumption|split; [assumption|]]].
  - unfold vectorized_cell.
    unfold mbind at 1. unfold run_bind at 1. rewrite norm_rvs_n_run by lia.
    unfold mbind at 1. unfold run_bind at 1. rewrite norm_rvs_n_run by lia.
    unfold mbind at 1. unfold run_bind at 1. rewrite norm_rvs_n_run by lia.
    unfold pure, vectorized_reduce, reduce_outputs. rewrite Hd. reflexivity.
  - apply (count_over_N count N d); [lia|assumption|assumption].
Qed.

(** X3: the vectorized cell with N = 0: no draw, no exception; the empty mask
    sums to 0 and numpy's 0 / 0.0 is nan (where the loop version raises
    ZeroDivisionError). *)
Theorem vectorized_cell_without_trials (g : G) :
  vectorized_cell G norm_rvs 0 g = (Ok (NpFloat64 S754_nan), g).
Proof. reflexivity. Qed.

(** X4: a negative N stops the loop version at [numpy.empty(N)]: ValueError,
    before any draw. *)
Theorem negative_N_raises_before_drawing (N : Z) (g : G) :
  N < 0 ->
  simulation_cell G norm_rvs heap N g = (Raise ValueError, g)
  /\ run N g = (Raise ValueError, g).
Proof.
  intros HN.
  assert (H : simulation_cell G norm_rvs heap N g = (Raise ValueError, g)).
  { unfold simulation_cell, Np.empty. assert ((N <? 0) = true) as -> by lia.
    reflexivity. }
  split; [assumption|].
  unfold run_failure_probability, mbind, run_bind. rewrite H. reflexivity.
Qed.

(** X5: what the uninitialised buffers of [numpy.empty] hold never shows: the
    simulation cell and the experiment give the same result and leave the
    same generator whatever the buffers contained. *)
Theorem results_do_not_depend_on_buffer_contents (heap' : nat -> nat -> float)
    (N : Z) (g : G) :
  simulation_cell G norm_rvs heap N g = simulation_cell G norm_rvs heap' N g
  /\ run N g = run_failure_probability G norm_rvs heap' N g.
Proof.
  assert (H : simulation_cell G norm_rvs heap N g =
              simulation_cell G norm_rvs heap' N g).
  { destruct (Z.ltb_spec N 0) as [Hneg|Hpos].
    - unfold simulation_cell, Np.empty. assert ((N <? 0) = true) as -> by lia.
      reflexivity.
    - rewrite !simulation_cell_run by assumption. reflexivity. }
  split; [assumption|].
  unfold run_failure_probability, mbind, run_bind. rewrite H. reflexivity.
Qed.

(** X6: the two ends of the estimate, for N > 0 (with float(N) in range): when
    every trial fails it is exactly 1.0, when none fails exactly 0.0. *)
Theorem estimate_when_all_or_no_trials_fail (N : Z) (d : float) (g : G) :
  0 < N -> py_float N = Ok d ->
  (Forall (fun t => fails t = true) (trials (Z.to_nat N) g) ->
   fst (run N g) = Ok (PyFloat one))
  /\ (Forall (fun t => fails t = false) (trials (Z.to_nat N) g) ->
      fst (run N g) = Ok (PyFloat zero)).
Proof.
  intros HN Hd.
  rewrite (run_failure_probability_run G norm_rvs heap N d) by assumption.
  cbn [fst]. split; intros H.
  - rewrite (count_failures_all _ H), draw_trials_length, Z2Nat.id by lia.
    rewrite of_Z_self_quotient by assumption. reflexivity.
  - rewrite (count_failures_none _ H).
    destruct (py_float_positive N d HN Hd) as (_ & m & e & ->). reflexivity.
Qed.

(** X7: one iteration of the loop, the one at index k < N: it writes cell k of
    each array and no other cell, and adds 1 to [failures] when the trial it
    ran fails, 0 otherwise. *)
Theorem loop_iteration_effect (N : Z) (k : nat) (a0 a1 : list float) (g : G) :
  Np.empty (heap 0) N = Ok a0 -> Np.empty (heap 1) N = Ok a1 ->
  (k < Z.to_nat N)%nat ->
  exists st st' g1 g2 t,
    for_each (take k (range N)) (simulation_step G norm_rvs)
      (HoopState 0 a0 a1) g = (Ok st, g1)
    /\ for_each (take (S k) (range N)) (simulation_step G norm_rvs)
         (HoopState 0 a0 a1) g = (Ok st', g2)
    /\ draw_trials norm_rvs 1 g1 = ([t], g2)
    /\ failures st' = failures st + (if fails t then 1 else 0)
    /\ stresses st' = <[k := fst t]> (stresses st)
    /\ yield_strengths st' = <[k := snd t]> (yield_strengths st)
    /\ length (stresses st') = Z.to_nat N
    /\ length (yield_strengths st') = Z.to_nat N.
Proof.
  intros E0 E1 Hk.
  pose proof (simulation_iterations G norm_rvs heap N k a0 a1 g E0 E1 ltac:(lia)) as Hk0.
  pose proof (simulation_iterations G norm_rvs heap N (S k) a0 a1 g E0 E1 ltac:(lia)) as Hk1.
  assert (L0 : length a0 = Z.to_nat N).
  { unfold Np.empty in E0. destruct (N <? 0); [discriminate|].
    injection E0 as <-. rewrite length_map, length_seq. reflexivity. }
  assert (L1 : length a1 = Z.to_nat N).
  { unfold Np.empty in E1. destruct (N <? 0); [discriminate|].
    injection E1 as <-. rewrite length_map, length_seq. reflexivity. }
  replace (S k) with (k + 1)%nat in Hk1 by lia.
  rewrite (draw_trials_app G norm_rvs k 1 g) in Hk1. cbn [fst snd] in Hk1.
  pose proof (draw_trials_length G norm_rvs 1 (snd (draw_trials norm_rvs k g))) as Hone.
  destruct (draw_trials norm_rvs 1 (snd (draw_trials norm_rvs k g))) as [l g2] eqn:El.
  cbn [fst snd] in *.
  destruct l as [|t [|t' l]]; try discriminate.
  pose proof (draw_trials_length G norm_rvs k g) as Hlk.
  destruct (lookup_lt_is_Some_2 a0 k ltac:(lia)) as [x0 Hx0].
  destruct (lookup_lt_is_Some_2 a1 k ltac:(lia)) as [x1 Hx1].
  eexists _, _, _, _, t.
  split; [exact Hk0|]. replace (S k) with (k + 1)%nat by lia.
  split; [exact Hk1|]. split; [exact El|].
  cbn [failures stresses yield_strengths].
  rewrite count_failures_app, !map_app.
  rewrite (drop_S a0 x0 k Hx0), (drop_S a1 x1 k Hx1).
  replace (k + 1)%nat with (S k) by lia.
  split; [|split; [|split; [|split]]].
  - rewrite (count_failures_cons t []). unfold count_failures at 2. simpl. lia.
  - rewrite insert_app_r_alt by (rewrite length_map; lia).
    rewrite length_map, Hlk, Nat.sub_diag, <- app_assoc. reflexivity.
  - rewrite insert_app_r_alt by (rewrite length_map; lia).
    rewrite length_map, Hlk, Nat.sub_diag, <- app_assoc. reflexivity.
  - rewrite !length_app, !length_map, length_drop, Hlk. simpl. lia.
  - rewrite !length_app, !length_map, length_drop, Hlk. simpl. lia.
Qed.

Local Abbreviation no_trial_result N :=
  (if N =? 0 then Raise ZeroDivisionError else Ok (PyFloat (S754_zero true))).

(** X8: the integration cells for N <= 0: the loop body never runs and nothing is
    drawn, [accum] is still the int 0 at the division; N = 0 raises
    ZeroDivisionError and a negative N gives the Python float -0.0. *)
Theorem integration_without_iterations (N : Z) (d : float) (g : G) :
  N <= 0 -> py_float N = Ok d ->
  first_integral G uniform float_pow N g = (no_trial_result N, g)
  /\ second_integral G uniform float_pow np_sin N g = (no_trial_result N, g)
  /\ third_integral G uniform float_pow np_cos N g = (no_trial_result N, g).
Proof.
  intros HN Hd.
  assert (H : forall measure : Z,
            (d' ← py_float N; truediv_float (PyInt (measure * 0)) d') =
            no_trial_result N).
  { intros measure. rewrite Z.mul_0_r, Hd, bind_ok.
    destruct (Z.eqb_spec N 0) as [->|Hne].
    - injection Hd as <-. reflexivity.
    - destruct (py_float_negative N d ltac:(lia) Hd) as (m & e & ->). reflexivity. }
  unfold first_integral, second_integral, third_integral.
  rewrite !integration_cell_no_trial by assumption. rewrite !H. auto.
Qed.

End Cells.

(** X9: the divisor of both cells is exact for every N below 2 ^ 53: float(N) is
    the float m * 2 ^ e with m * 2 ^ e = N, so no rounding enters before the
    division itself. *)
Theorem float_of_N_is_exact (N : Z) :
  0 < N < 2 ^ 53 ->
  exists m e, py_float N = Ok (S754_finite false m e)
    /\ e <= 0 /\ Zpos m = N * 2 ^ (- e).
Proof.
  intros HN. destruct (of_Z_exact N HN) as (m & e & E & He & Hm).
  exists m, e. unfold py_float. rewrite E. auto.
Qed.



Section Range.

Variable G : Type.
Variable norm_rvs : float -> float -> G -> float * G.
Variable heap : nat -> nat -> float.


End Range.

(** ** The further properties on concrete draws *)

Lemma vectorized_estimate_is_count_over_N_witness :
  vectorized_cell Tape.G Tape.norm_rvs 2 Tape.one_failure_in_two =
  (Ok (NpFloat64 Tape.half), []).
Proof.
  destruct (vectorized_estimate_is_count_over_N Tape.G Tape.norm_rvs 2 (of_Z 2)
              Tape.one_failure_in_two) as [H _]; [lia|reflexivity|].
  rewrite H. vm_compute. reflexivity.
Defined.

Lemma negative_N_raises_before_drawing_witness :
  run_failure_probability Tape.G Tape.norm_rvs Tape.heap (-1) Tape.one_failure =
  (Raise ValueError, Tape.one_failure).
Proof.
  apply (negative_N_raises_before_drawing Tape.G Tape.norm_rvs Tape.heap (-1)).
  lia.
Defined.

Lemma estimate_when_all_or_no_trials_fail_witness :
  fst (run_failure_probability Tape.G Tape.norm_rvs Tape.heap 1 Tape.one_failure) =
  Ok (PyFloat one).
Proof.
  apply (estimate_when_all_or_no_trials_fail Tape.G Tape.norm_rvs Tape.heap 1
           (of_Z 1) Tape.one_failure); [lia|reflexivity|].
  constructor; [vm_compute; reflexivity|constructor].
Defined.

Lemma loop_iteration_effect_witness :
  exists st st' g1 g2 t,
    for_each (take 1 (range 2)) (simulation_step Tape.G Tape.norm_rvs)
      (HoopState 0 [S754_nan; S754_nan] [S754_nan; S754_nan])
      Tape.one_failure_in_two = (Ok st, g1)
    /\ for_each (take 2 (range 2)) (simulation_step Tape.G Tape.norm_rvs)
         (HoopState 0 [S754_nan; S754_nan] [S754_nan; S754_nan])
         Tape.one_failure_in_two = (Ok st', g2)
    /\ draw_trials Tape.norm_rvs 1 g1 = ([t], g2)
    /\ failures st' = failures st + (if fails t then 1 else 0)
    /\ stresses st' = <[1%nat := fst t]> (stresses st)
    /\ yield_strengths st' = <[1%nat := snd t]> (yield_strengths st)
    /\ length (stresses st') = Z.to_nat 2
    /\ length (yield_strengths st') = Z.to_nat 2.
Proof.
  apply (loop_iteration_effect Tape.G Tape.norm_rvs Tape.heap 2 1);
    [reflexivity|reflexivity|simpl; lia].
Defined.

Lemma integration_without_iterations_witness :
  first_integral Tape.G Tape.uniform Tape.float_pow (-1) Tape.two_points =
  (Ok (PyFloat (S754_zero true)), Tape.two_points).
Proof.
  apply (integration_without_iterations Tape.G Tape.uniform Tape.float_pow
           Tape.np_sin Tape.np_cos (-1) (of_Z (-1)) Tape.two_points);
    [lia|reflexivity].
Defined.

Lemma float_of_N_is_exact_witness :
  exists m e, py_float 10000 = Ok (S754_finite false m e)
    /\ e <= 0 /\ Zpos m = 10000 * 2 ^ (- e).
Proof. apply (float_of_N_is_exact 10000). lia. Defined.

